(** * streamlit_file_events: the event pipeline of file_viewer.py

    A shallow embedding of the watchdog handler, the producer/consumer queue,
    the polling consumer and the session controls of [file_viewer.py], with the
    older handler of [file_viewer_0.py] for comparison.

    Conventions.
    - A naive [datetime] is the number of microseconds since the start of the
      proleptic calendar: comparison of naive datetimes and subtraction of a
      [timedelta] are comparison and subtraction on that number.
    - The text produced by [strftime('%Y-%m-%d %H:%M:%S')] names one whole
      second; it is represented by the number of that second, so
      [strftime_S] drops the microseconds and [strptime_S] gives them back
      as zero.
    - [queue.Queue] is the FIFO of the Python library: [put] adds at the
      tail, [get] removes the head, [empty] tests for no element.
    - A folder is read as a snapshot for the length of a view: its
      entries, each with what [stat()], [read_text()], [pd.read_csv] and
      the media widgets give or raise on it.
    - The calls that only put text on the page ([st.title],
      [st.subheader], [st.success], [st.error], [st.info], [st.dataframe],
      the grid) and the log lines are taken to return; what they put is
      kept in the output of a run. *)

From Stdlib Require Import ZArith Bool Ascii String List Lia Sorted.
From stdpp Require Import gmap strings list.
Import ListNotations.

Local Open Scope string_scope.
Local Open Scope Z_scope.
Local Open Scope list_scope.

#[local] Arguments String.append !_ _ / : simpl nomatch.

(** ** Strings: Python's [needle in haystack] and the last path component *)

Module Str.

(** [a in b] on Python strings: [a] occurs in [b] as a contiguous run. *)
Fixpoint contains (needle hay : string) : bool :=
  String.prefix needle hay ||
  match hay with
  | EmptyString => false
  | String _ rest => contains needle rest
  end.

Definition slash : ascii := "/"%char.

(** The component after the last ['/'], with what was read of the
    current component in [acc]. *)
Fixpoint basename_from (acc p : string) : string :=
  match p with
  | EmptyString => acc
  | String c rest =>
      if Ascii.eqb c slash then basename_from EmptyString rest
      else basename_from (acc +:+ String c EmptyString) rest
  end.

(** [os.path.basename]. *)
Definition basename (p : string) : string := basename_from EmptyString p.

End Str.

(** ** Data *)

(** A naive datetime, in microseconds. *)
Definition datetime := Z.

Definition timedelta_minutes (m : Z) : Z := m * 60 * 1000000.
Definition timedelta_seconds (s : Z) : Z := s * 1000000.

(** [t.strftime('%Y-%m-%d %H:%M:%S')]: the whole second that holds [t]. *)
Definition strftime_S (t : datetime) : Z := t / 1000000.

(** [datetime.strptime(s, '%Y-%m-%d %H:%M:%S')]. *)
Definition strptime_S (s : Z) : datetime := s * 1000000.

(** The raw event of watchdog, as far as the handlers read it. *)
Record FileSystemEvent := {
  event_type : string;
  src_path : string;
  is_directory : bool
}.

(** [FileEventWrapper]: built from a raw event and the clock. *)
Record FileEventWrapper := {
  w_event_type : string;
  w_src_path : string;
  w_timestamp : Z
}.

Definition FileEventWrapper_init (event : FileSystemEvent) (now : datetime)
  : FileEventWrapper :=
  {| w_event_type := event_type event;
     w_src_path := src_path event;
     w_timestamp := strftime_S now |}.

(** Values stored in the dictionaries of the program. *)
Inductive value :=
| VStr (s : string)
| VInt (z : Z)
| VTime (sec : Z).

Definition to_dict (w : FileEventWrapper) : gmap string value :=
  <["event_type" := VStr (w_event_type w)]>
  (<["src_path" := VStr (w_src_path w)]>
  (<["timestamp" := VTime (w_timestamp w)]> ∅)).

(** ** The handlers *)

Definition ignore_list : list string := [".DS_Store"; ".localized"].

(** [any(ignored in path for ignored in [".DS_Store", ".localized"])] *)
Definition any_ignored (path : string) : bool :=
  existsb (fun ignored => Str.contains ignored path) ignore_list.

(** The guard of [FileEventHandler.on_any_event] in file_viewer.py. *)
Definition accepts (event : FileSystemEvent) : bool :=
  negb (is_directory event) && negb (any_ignored (src_path event)).

(** [FileEventHandler.on_any_event] of file_viewer.py on the shared queue. *)
Definition on_any_event (event : FileSystemEvent) (now : datetime)
    (event_queue : list FileEventWrapper) : list FileEventWrapper :=
  if accepts event
  then event_queue ++ [FileEventWrapper_init event now]
  else event_queue.

Module V0.

(** [FileEventHandler.on_any_event] of file_viewer_0.py: the raw event
    itself is queued. *)
Definition on_any_event (event : FileSystemEvent)
    (event_queue : list FileSystemEvent) : list FileSystemEvent :=
  if negb (is_directory event)
  then event_queue ++ [event]
  else event_queue.

End V0.

(** ** Configuration *)

(** What [yaml.safe_load] may give: a mapping, or something that is not
    one ([None] for an empty file, a list, a scalar). *)
Inductive PyObj :=
| PDict (d : gmap string value)
| POther.

(** A computation that returns or raises. *)
Inductive result (A : Type) :=
| Ok (a : A)
| Raise (exn : string).
Arguments Ok {A} a.
Arguments Raise {A} exn.

(** The file system as a run sees it: [os.path.exists] / [Path.exists],
    and the text of a file that can be opened. *)
Record FileSystem := {
  fs_exists : string -> bool;
  fs_read : string -> option string
}.

Definition default_config : gmap string value :=
  <["refresh_rate" := VInt 15000]>
  (<["starting_directory" := VStr "~/Downloads"]> ∅).

(** [config[key]] *)
Definition subscript (config : PyObj) (key : string) : result value :=
  match config with
  | PDict d =>
      match d !! key with
      | Some v => Ok v
      | None => Raise "KeyError"
      end
  | POther => Raise "TypeError"
  end.

(** ** Session state and observer threads *)

Inductive thread_status := Running | StopRequested | Terminated.

(** An [Observer] that has been scheduled on [watch_path] and started. *)
Record ObserverThread := {
  watch_path : string;
  status : thread_status
}.

(** [st.session_state]; [observer] is a handle into the threads of the
    process, [None] for Python's [None]. *)
Record SessionState := {
  event_queue : list FileEventWrapper;
  observer : option nat;
  event_list : list FileEventWrapper;
  monitoring : bool
}.

Record Process := {
  session : SessionState;
  threads : list ObserverThread
}.

(** The four [if ... not in st.session_state] initialisations. *)
Definition initial_session : SessionState :=
  {| event_queue := []; observer := None; event_list := []; monitoring := false |}.

Definition initial_process : Process :=
  {| session := initial_session; threads := [] |}.

(** [start_observer]: a new thread, scheduled on [path] and started; the
    handle of the new observer is returned. *)
Definition start_observer (path : string) (ths : list ObserverThread)
  : list ObserverThread * nat :=
  (ths ++ [{| watch_path := path; status := Running |}], length ths).

Definition observer_stop (t : ObserverThread) : ObserverThread :=
  {| watch_path := watch_path t;
     status := match status t with Running => StopRequested | s => s end |}.

(** [observer.join()] returns once the thread has ended, and the thread
    ends only after it was asked to stop: on a thread that still runs the
    join does not return ([None]). *)
Definition observer_join (t : ObserverThread) : option ObserverThread :=
  match status t with
  | Running => None
  | StopRequested | Terminated =>
      Some {| watch_path := watch_path t; status := Terminated |}
  end.

(** The two calls of [stop_observer] on the thread of the observer:
    [observer.stop()], then [observer.join()]; [None] when the function
    does not return. *)
Definition stop_observer_call (t : ObserverThread) : option ObserverThread :=
  observer_join (observer_stop t).

(** [stop_observer] on the threads of the process. *)
Definition stop_observer (h : nat) (ths : list ObserverThread)
  : list ObserverThread :=
  alter (fun t => default t (stop_observer_call t)) h ths.

(** ** The consumer: [check_events_and_update] *)

(** The [while not event_queue.empty()] loop, by recursion on the queue. *)
Fixpoint drain_loop (queue lst : list FileEventWrapper) (events_processed : bool)
  : list FileEventWrapper * list FileEventWrapper * bool :=
  match queue with
  | [] => (queue, lst, events_processed)
  | event :: rest => drain_loop rest (lst ++ [event]) true
  end.

(** The number that the function writes to the log:
    [len(st.session_state.event_list)]. *)
Definition logged_count (s : SessionState) : nat := length (event_list s).

(** [check_events_and_update]: the new session state and the returned
    [events_processed]. *)
Definition check_events_and_update (s : SessionState) : SessionState * bool :=
  let '(q, l, events_processed) := drain_loop (event_queue s) (event_list s) false in
  ({| event_queue := q; observer := observer s;
      event_list := l; monitoring := monitoring s |}, events_processed).

(** ** The display of recent events *)

Inductive ui :=
| Title (s : string)
| Subheader (s : string)
| Error (s : string)
| Success (s : string)
| Info (s : string)
| Dataframe (rows : list (gmap string value)).

(** The test of the comprehension in [display_recent_events]. *)
Definition is_recent (cutoff_time : datetime) (event : FileEventWrapper) : bool :=
  cutoff_time <=? strptime_S (w_timestamp event).

(** The events kept by the comprehension, before [to_dict]. *)
Definition recent_wrappers (now : datetime) (lst : list FileEventWrapper)
  : list FileEventWrapper :=
  let cutoff_time := now - timedelta_minutes 5 in
  List.filter (is_recent cutoff_time) lst.

(** The list [recent_events] of [display_recent_events]. *)
Definition recent_events (now : datetime) (lst : list FileEventWrapper)
  : list (gmap string value) :=
  map to_dict (recent_wrappers now lst).

Definition display_recent_events (now : datetime) (lst : list FileEventWrapper)
  : list ui :=
  Subheader "New Events" ::
  match lst with
  | [] => []
  | _ :: _ =>
      match recent_events now lst with
      | [] => [Info "No events in the last 5 minutes."]
      | rows => [Dataframe rows]
      end
  end.

(** ** The directory views

    A folder is read as a snapshot: the entries that [Path.iterdir] yields,
    each with what the views ask of it. *)

Inductive entry_kind := RegularFile | Directory | OtherEntry.

(** One [Path] of the folder: [name], [suffix], [str(file)], [is_dir()] /
    [is_file()], [stat().st_mtime] as a whole number that orders the
    entries as the floats do, the second that
    [datetime.fromtimestamp(st_mtime).strftime('%Y-%m-%d %H:%M:%S')] names,
    [stat().st_size], the result of
    [read_text()] (the text, or the exception it raises, as for a folder or
    for bytes that are not text) and the result of [pd.read_csv] (a
    rendering of the frame, or the message of the exception).
    [f_stat_error] is the exception that [stat()] and [os.path.getmtime]
    raise on the entry, if they do (a link to nothing, an entry that is
    gone); the time and the size mean nothing then. [f_show_error] is the
    exception that [st.image], [st.audio] or [st.video] raise on the file,
    if they do. *)
Record DirEntry := {
  f_name : string;
  f_suffix : string;
  f_path : string;
  f_kind : entry_kind;
  f_mtime : Z;
  f_modified : Z;
  f_size : Z;
  f_text : result string;
  f_csv : result string;
  f_stat_error : option string;
  f_show_error : option string
}.

(** What [os.path.exists] and [iterdir] find at the folder path. *)
Inductive folder_state :=
| Missing
| NotAFolder
| Folder (entries : list DirEntry).

(** What the views put on the page. *)
Inductive view :=
| VSubheader (s : string)
| VError (s : string)
| VWarning (s : string)
| VGrid (rows : list (gmap string value))
| VCode (text language : string)
| VMarkdown (text : string)
| VTable (frame : string)
| VImage (path : string)
| VAudio (path : string)
| VVideo (path : string)
| VWrite (d : gmap string value)
| VText (s : string).

(** [file.name not in [".DS_Store", ".localized"]] *)
Definition name_listed (e : DirEntry) : bool :=
  negb (existsb (String.eqb (f_name e)) ignore_list).

Definition is_dir (e : DirEntry) : bool :=
  match f_kind e with Directory => true | _ => false end.

Definition is_file (e : DirEntry) : bool :=
  match f_kind e with RegularFile => true | _ => false end.

(** One dictionary of [files_data]. *)
Definition file_row (e : DirEntry) : gmap string value :=
  <["file_name" := VStr (f_name e)]>
  (<["file_type" := VStr (if is_dir e then "Folder" else "File")]>
  (<["modified_time" := VTime (f_modified e)]>
  (<["size" := VInt (f_size e)]>
  (<["path" := VStr (f_path e)]> ∅)))).

Definition files_data (entries : list DirEntry) : list (gmap string value) :=
  map file_row (List.filter name_listed entries).

(** The exception of the first entry on which [stat()] raises. *)
Fixpoint first_stat_error (l : list DirEntry) : option string :=
  match l with
  | [] => None
  | e :: rest =>
      match f_stat_error e with
      | Some exn => Some exn
      | None => first_stat_error rest
      end
  end.

(** [display_file_listing_as_tree]: the rows are made one entry after the
    other, each with its [stat()]. *)
Definition display_file_listing_as_tree (folder : folder_state) : result (list view) :=
  match folder with
  | Missing =>
      Ok [VSubheader "Current Directory Contents";
          VError "The specified folder path does not exist."]
  | NotAFolder => Raise "NotADirectoryError"
  | Folder entries =>
      match first_stat_error (List.filter name_listed entries) with
      | Some exn => Raise exn
      | None =>
          Ok [VSubheader "Current Directory Contents"; VGrid (files_data entries)]
      end
  end.

(** [max(..., key=os.path.getmtime)] with the best so far: a later entry
    replaces it only when it is strictly newer. *)
Fixpoint max_mtime_from (best : DirEntry) (l : list DirEntry) : DirEntry :=
  match l with
  | [] => best
  | x :: rest =>
      if f_mtime best <? f_mtime x then max_mtime_from x rest
      else max_mtime_from best rest
  end.

(** [valid_files] and, when there is one, [latest_file]. *)
Definition valid_files (entries : list DirEntry) : list DirEntry :=
  List.filter name_listed entries.

Definition latest_file (entries : list DirEntry) : option DirEntry :=
  match valid_files entries with
  | [] => None
  | x :: rest => Some (max_mtime_from x rest)
  end.

Definition code_language (suffix : string) : option string :=
  if String.eqb suffix ".java" then Some "java"
  else if String.eqb suffix ".ts" then Some "typescript"
  else if String.eqb suffix ".js" then Some "javascript"
  else if String.eqb suffix ".py" then Some "python"
  else if String.eqb suffix ".sh" then Some "bash"
  else None.

Definition suffix_in (suffix : string) (l : list string) : bool :=
  existsb (String.eqb suffix) l.

(** The chain of [if latest_file.suffix in [...]] of [display_latest_file]. *)
Definition preview (latest : DirEntry) : result (list view) :=
  match code_language (f_suffix latest) with
  | Some language =>
      match f_text latest with
      | Ok text => Ok [VCode text language]
      | Raise e => Raise e
      end
  | None =>
      if suffix_in (f_suffix latest) [".md"] then
        match f_text latest with
        | Ok text => Ok [VMarkdown text]
        | Raise e => Raise e
        end
      else if suffix_in (f_suffix latest) [".csv"] then
        Ok [VSubheader ("Preview of " +:+ f_name latest);
            match f_csv latest with
            | Ok frame => VTable frame
            | Raise e => VError ("Error reading CSV file: " +:+ e)
            end]
      else if suffix_in (f_suffix latest) [".jpg"; ".png"; ".webp"] then
        match f_show_error latest with
        | Some exn => Raise exn
        | None => Ok [VImage (f_path latest)]
        end
      else if suffix_in (f_suffix latest) [".mp3"; ".wav"] then
        match f_show_error latest with
        | Some exn => Raise exn
        | None => Ok [VAudio (f_path latest)]
        end
      else if suffix_in (f_suffix latest) [".mp4"; ".avi"] then
        match f_show_error latest with
        | Some exn => Raise exn
        | None => Ok [VVideo (f_path latest)]
        end
      else
        Ok [VWrite (<["File Name" := VStr (f_name latest)]>
                    (<["Size (bytes)" := VInt (f_size latest)]>
                    (<["Modified" := VTime (f_modified latest)]> ∅)))]
  end.

(** [display_latest_file]; [max] asks [os.path.getmtime] of each valid
    file in turn. *)
Definition display_latest_file (folder : folder_state) : result (list view) :=
  match folder with
  | Missing =>
      Ok [VSubheader "Latest File"; VError "The specified folder path does not exist."]
  | NotAFolder => Raise "NotADirectoryError"
  | Folder entries =>
      match latest_file entries with
      | None => Ok [VSubheader "Latest File";
                    VWarning "No valid files found in the directory."]
      | Some latest =>
          match first_stat_error (valid_files entries) with
          | Some exn => Raise exn
          | None =>
              match preview latest with
              | Ok views => Ok (VSubheader "Latest File" :: views)
              | Raise e => Raise e
              end
          end
      end
  end.


(** ** One run of the script *)

Inductive button := StartMonitoring | StopMonitoring.

Definition button_eqb (a b : button) : bool :=
  match a, b with
  | StartMonitoring, StartMonitoring => true
  | StopMonitoring, StopMonitoring => true
  | _, _ => false
  end.

(** What a run reads from outside: the clock, the file system, the text of
    the folder field, the button whose click caused the run, if any, the
    folder as the views of the run find it, and whether [st.slider] takes a
    start value (it raises [StreamlitAPIException] on a value that it
    cannot show between its bounds). *)
Record RunInput := {
  now : datetime;
  fs : FileSystem;
  folder_text : string;
  clicked : option button;
  folder : folder_state;
  slider_accepts : value -> bool
}.

(** [st.button(label)]: true in the run caused by a click on that button. *)
Definition st_button (b : button) (inp : RunInput) : bool :=
  match clicked inp with
  | Some b' => button_eqb b b'
  | None => false
  end.

Inductive outcome :=
| Completed
| Stopped
| Raised (exn : string).

(** The state after the run, the messages of [main] itself and the recent
    events, the two views of the folder as far as they were made, and how
    the run ended. *)
Record RunResult := {
  after : Process;
  out : list ui;
  views : list view;
  ending : outcome
}.

Definition with_session (p : Process) (s : SessionState) : Process :=
  {| session := s; threads := threads p |}.

(** The branch [if not st.session_state.monitoring: ... else: ...] of
    [main], lines 217-228. *)
Definition controls (folder_path : string) (inp : RunInput) (p : Process)
  : Process * list ui :=
  let s := session p in
  if negb (monitoring s) then
    if st_button StartMonitoring inp then
      let '(ths, h) := start_observer folder_path (threads p) in
      ({| session := {| event_queue := event_queue s; observer := Some h;
                        event_list := event_list s; monitoring := true |};
          threads := ths |},
       [Success ("Started monitoring " +:+ folder_path)])
    else (p, [])
  else
    if st_button StopMonitoring inp then
      let ths := match observer s with
                 | Some h => stop_observer h (threads p)
                 | None => threads p
                 end in
      ({| session := {| event_queue := event_queue s; observer := None;
                        event_list := event_list s; monitoring := false |};
          threads := ths |},
       [Success "Stopped monitoring"])
    else (p, []).

Section Program.

(** [yaml.safe_load] and [os.path.expanduser] belong to the libraries; the
    first raises on text that is not YAML. *)
Variable yaml_safe_load : string -> result PyObj.
Variable expanduser : string -> string.

Definition config_path : string := ".file_viewer.yaml".

Definition load_config (f : FileSystem) : result PyObj :=
  if fs_exists f config_path then
    match fs_read f config_path with
    | Some text => yaml_safe_load text
    | None => Raise "OSError"
    end
  else Ok (PDict default_config).

(** [main], with the module-level [config] as an argument. *)
Definition main (config : PyObj) (inp : RunInput) (p : Process) : RunResult :=
  let out0 := [Title "Enhanced Real-Time File Viewer"] in
  let p1 := if monitoring (session p)
            then with_session p (fst (check_events_and_update (session p)))
            else p in
  match subscript config "starting_directory" with
  | Raise e => {| after := p1; out := out0; views := []; ending := Raised e |}
  | Ok _ =>
      let folder_path := expanduser (folder_text inp) in
      if String.eqb folder_path "" || negb (fs_exists (fs inp) folder_path) then
        {| after := p1;
           out := out0 ++ [Error "Please enter a valid folder path."];
           views := [];
           ending := Stopped |}
      else
        let '(p2, out2) := controls folder_path inp p1 in
        match subscript config "refresh_rate" with
        | Raise e =>
            {| after := p2; out := out0 ++ out2; views := []; ending := Raised e |}
        | Ok rate =>
            if negb (slider_accepts inp rate) then
              {| after := p2; out := out0 ++ out2; views := [];
                 ending := Raised "StreamlitAPIException" |}
            else
              let out3 :=
                out0 ++ out2
                ++ display_recent_events (now inp) (event_list (session p2)) in
              match display_file_listing_as_tree (folder inp) with
              | Raise e =>
                  {| after := p2; out := out3; views := []; ending := Raised e |}
              | Ok tree =>
                  match display_latest_file (folder inp) with
                  | Raise e =>
                      {| after := p2; out := out3; views := tree;
                         ending := Raised e |}
                  | Ok latest =>
                      {| after := p2; out := out3; views := tree ++ latest;
                         ending := Completed |}
                  end
              end
        end
  end.

(** A whole run of the script: the configuration is read, then [main]. *)
Definition script_run (inp : RunInput) (p : Process) : RunResult :=
  match load_config (fs inp) with
  | Raise e => {| after := p; out := []; views := []; ending := Raised e |}
  | Ok config => main config inp p
  end.

End Program.

(** ** The process: observer threads and runs of the script *)

Definition thread_alive (t : ObserverThread) : bool :=
  match status t with
  | Terminated => false
  | _ => true
  end.

(** The thread of observer [h] calls the handler on [event]. *)
Definition deliver (h : nat) (event : FileSystemEvent) (t : datetime)
    (p : Process) : Process :=
  match threads p !! h with
  | Some th =>
      if thread_alive th then
        let s := session p in
        with_session p
          {| event_queue := on_any_event event t (event_queue s);
             observer := observer s;
             event_list := event_list s;
             monitoring := monitoring s |}
      else p
  | None => p
  end.

Inductive label :=
| Deliver (h : nat) (event : FileSystemEvent) (t : datetime)
| Rerun (inp : RunInput).

Section Steps.

Variable yaml_safe_load : string -> result PyObj.
Variable expanduser : string -> string.

Definition step (l : label) (p : Process) : Process :=
  match l with
  | Deliver h event t => deliver h event t p
  | Rerun inp => after (script_run yaml_safe_load expanduser inp p)
  end.

(** Labels are applied from left to right. *)
Definition run_labels (ls : list label) (p : Process) : Process :=
  fold_left (fun q l => step l q) ls p.

Definition reachable (p : Process) : Prop :=
  exists ls, run_labels ls initial_process = p.

End Steps.

(** ** Producer and consumer, step by step

    The handler runs on the observer's thread while the script runs on the
    consumer's. [put], [empty] and [get] are the atomic actions on the
    queue; a schedule says whose action comes next. *)

Module Interleaving.

(** Where the consumer is in [check_events_and_update]; [batch] is what
    this call has appended to [event_list] so far. *)
Inductive consumer :=
| Outside
| Testing (events_processed : bool) (batch : list FileEventWrapper)
| Getting (events_processed : bool) (batch : list FileEventWrapper).

Record Pipe := {
  queue : list FileEventWrapper;
  history : list FileEventWrapper;
  pc : consumer
}.

Inductive turn :=
| P (event : FileSystemEvent) (t : datetime)
| C.

(** What a finished call has moved, and what it returns. *)
Definition drained := (list FileEventWrapper * bool)%type.

Definition producer_step (event : FileSystemEvent) (t : datetime) (s : Pipe) : Pipe :=
  {| queue := on_any_event event t (queue s); history := history s; pc := pc s |}.

(** One action of the consumer. A [get] on an empty queue waits. *)
Definition consumer_step (s : Pipe) : Pipe * option drained :=
  match pc s with
  | Outside =>
      ({| queue := queue s; history := history s; pc := Testing false [] |}, None)
  | Testing ep batch =>
      match queue s with
      | [] => ({| queue := []; history := history s; pc := Outside |},
               Some (batch, ep))
      | _ :: _ => ({| queue := queue s; history := history s;
                      pc := Getting ep batch |}, None)
      end
  | Getting ep batch =>
      match queue s with
      | [] => (s, None)
      | event :: rest =>
          ({| queue := rest; history := history s ++ [event];
              pc := Testing true (batch ++ [event]) |}, None)
      end
  end.

Definition turn_step (t : turn) (s : Pipe) : Pipe * option drained :=
  match t with
  | P event tm => (producer_step event tm s, None)
  | C => consumer_step s
  end.

(** The state after a schedule and the results of the calls that
    finished, oldest first. *)
Fixpoint run (sch : list turn) (s : Pipe) : Pipe * list drained :=
  match sch with
  | [] => (s, [])
  | t :: rest =>
      let '(s1, o) := turn_step t s in
      let '(s2, ds) := run rest s1 in
      (s2, match o with Some d => d :: ds | None => ds end)
  end.

(** What the producer has put, in order. *)
Fixpoint pushes (sch : list turn) : list FileEventWrapper :=
  match sch with
  | [] => []
  | P event tm :: rest => on_any_event event tm [] ++ pushes rest
  | C :: rest => pushes rest
  end.

Definition batch_of (c : consumer) : list FileEventWrapper :=
  match c with
  | Outside => []
  | Testing _ b => b
  | Getting _ b => b
  end.

Definition start : Pipe := {| queue := []; history := []; pc := Outside |}.

(** A schedule in which only the consumer moves. *)
Definition consumer_only (n : nat) : list turn := repeat C n.

End Interleaving.

(** ** Words of the specification, for comparison with the code *)

Module Spec.

(** "exact filename match": the last component of the path is one of the
    names of the ignore list. *)
Definition ignored_by_name (path : string) : bool :=
  existsb (String.eqb (Str.basename path)) ignore_list.

(** The normalizer as the specification words it. *)
Definition normalizer_emits (event : FileSystemEvent) : bool :=
  negb (is_directory event) && negb (ignored_by_name (src_path event)).

(** [query_since(cutoff)]: the retained events at or after the cutoff. *)
Definition query_since (cutoff : datetime) (lst : list FileEventWrapper)
  : list FileEventWrapper :=
  List.filter (is_recent cutoff) lst.

(** [recent_events(window_seconds)] at time [t]. *)
Definition recent_events_window (window_seconds : Z) (t : datetime)
    (lst : list FileEventWrapper) : list FileEventWrapper :=
  query_since (t - timedelta_seconds window_seconds) lst.

(** A run that fails: it raises, or it reports an error. *)
Definition fails (r : RunResult) : Prop :=
  (exists e, ending r = Raised e) \/
  (exists m, In (Error m) (out r)) \/
  (exists m, In (VError m) (views r)).

End Spec.

(** ** Handlers over a stream of raw events *)

(** The queue of file_viewer.py after the observer has delivered the
    events, each with the clock at its delivery, to an empty queue. *)
Definition handle_all (evs : list (FileSystemEvent * datetime))
  : list FileEventWrapper :=
  fold_left (fun q et => on_any_event (fst et) (snd et) q) evs [].

(** The queue of file_viewer_0.py after the same deliveries. *)
Definition handle_all_v0 (evs : list (FileSystemEvent * datetime))
  : list FileSystemEvent :=
  fold_left (fun q et => V0.on_any_event (fst et) q) evs [].

(** The raw event a wrapper was made from; only events that are not for
    directories are ever wrapped. *)
Definition raw_of (w : FileEventWrapper) : FileSystemEvent :=
  {| event_type := w_event_type w; src_path := w_src_path w; is_directory := false |}.

(** ** Inputs used in examples *)

Definition ds_store_event : FileSystemEvent :=
  {| event_type := "modified"; src_path := "/tmp/watch/.DS_Store"; is_directory := false |}.

(** The event for a file whose name only contains [".localized"]. *)
Definition localized_notes : FileSystemEvent :=
  {| event_type := "created";
     src_path := "/tmp/watch/notes.localized.txt";
     is_directory := false |}.

Definition report_event : FileSystemEvent :=
  {| event_type := "created"; src_path := "/tmp/watch/report.txt"; is_directory := false |}.

(** A retained event whose timestamp is the second [sec]. *)
Definition event_at (sec : Z) : FileEventWrapper :=
  {| w_event_type := "modified"; w_src_path := "/tmp/watch/report.txt"; w_timestamp := sec |}.

(** A file system in which only the listed paths exist and no file can be
    read; in particular there is no [.file_viewer.yaml]. *)
Definition fs_with (paths : list string) : FileSystem :=
  {| fs_exists := fun p => existsb (String.eqb p) paths; fs_read := fun _ => None |}.

(** The slider of the examples takes the whole numbers. *)
Definition takes_numbers (v : value) : bool :=
  match v with
  | VInt _ => true
  | _ => false
  end.

(** A run in which /a and /b exist and the folder of the views is empty. *)
Definition click (b : option button) (folder : string) (t : datetime) : RunInput :=
  {| now := t; fs := fs_with ["/a"; "/b"]; folder_text := folder; clicked := b;
     folder := Folder []; slider_accepts := takes_numbers |}.

(** The same run with no button clicked: a refresh. *)
Definition without_click (inp : RunInput) : RunInput :=
  {| now := now inp; fs := fs inp; folder_text := folder_text inp; clicked := None;
     folder := folder inp; slider_accepts := slider_accepts inp |}.

Definition yaml_none : string -> result PyObj := fun _ => Ok POther.
Definition expanduser_id : string -> string := fun p => p.

(** A session that is not monitoring, with two events waiting in the queue. *)
Definition two_queued : SessionState :=
  {| event_queue := [event_at 1; event_at 2]; observer := None;
     event_list := []; monitoring := false |}.

(** Python's [int(b)] for a [bool]. *)
Definition int_of_bool (b : bool) : Z := if b then 1 else 0.

(** The state of the session in [p] once [main] has passed its first lines:
    drained when monitoring is on, untouched otherwise. *)
Definition polled (p : Process) : Process :=
  if monitoring (session p)
  then with_session p (fst (check_events_and_update (session p)))
  else p.

(** The test that lets a run of [main] come to the monitoring controls:
    [config] has a starting directory and the folder path is not empty and
    exists. *)
Definition reaches_controls (expanduser : string -> string) (config : PyObj)
    (inp : RunInput) : bool :=
  match subscript config "starting_directory" with
  | Ok _ =>
      negb (String.eqb (expanduser (folder_text inp)) ""
            || negb (fs_exists (fs inp) (expanduser (folder_text inp))))
  | Raise _ => false
  end.

Definition has_key (config : PyObj) (key : string) : bool :=
  match subscript config key with
  | Ok _ => true
  | Raise _ => false
  end.

(** A first session on /a: start, one event for report.txt, a poll, stop. *)
Definition first_session : list label :=
  [ Rerun (click (Some StartMonitoring) "/a" (strptime_S 1000));
    Deliver 0 report_event (strptime_S 1010);
    Rerun (click None "/a" (strptime_S 1015));
    Rerun (click (Some StopMonitoring) "/a" (strptime_S 1020)) ].

Definition after_first_session : Process :=
  run_labels yaml_none expanduser_id first_session initial_process.

(** A session that watches /a. *)
Definition watching_a : Process :=
  run_labels yaml_none expanduser_id
    [Rerun (click (Some StartMonitoring) "/a" (strptime_S 1000))] initial_process.

(** The events that finished calls of the consumer have moved, in order. *)
Definition moved (ds : list Interleaving.drained) : list FileEventWrapper :=
  concat (map fst ds).

(** A [get] is only ever reached after [empty] was false. *)
Definition ready (s : Interleaving.Pipe) : Prop :=
  match Interleaving.pc s with
  | Interleaving.Getting _ _ => Interleaving.queue s <> []
  | _ => True
  end.

(** ** Invariants of the process *)

(** No retained or queued event has a name of the ignore list in its path. *)
Definition no_ignored (p : Process) : Prop :=
  Forall (fun w => any_ignored (w_src_path w) = false)
         (event_queue (session p) ++ event_list (session p)).

(** At most one observer lives, and it is the one the session holds. *)
Definition one_observer (p : Process) : Prop :=
  (if monitoring (session p)
   then exists h th, observer (session p) = Some h /\
                     threads p !! h = Some th /\ status th = Running
   else observer (session p) = None) /\
  (forall i th, threads p !! i = Some th -> observer (session p) <> Some i ->
                status th = Terminated).

(** ** file_viewer_0.py: views, session and [main] *)

Module Viewer0.

(** [sorted(..., key=os.path.getmtime, reverse=True)]: newest first, and
    entries of equal time in the order they had. *)
Fixpoint insert_newest_first (x : DirEntry) (l : list DirEntry) : list DirEntry :=
  match l with
  | [] => [x]
  | y :: rest =>
      if f_mtime x <? f_mtime y then y :: insert_newest_first x rest
      else x :: y :: rest
  end.

Fixpoint sorted_newest_first (l : list DirEntry) : list DirEntry :=
  match l with
  | [] => []
  | x :: rest => insert_newest_first x (sorted_newest_first rest)
  end.

(** The name shown by [st.text] for a file, after the page icon. *)
Definition file_lines (entries : list DirEntry) : list view :=
  map (fun e => VText (f_name e)) (List.filter is_file (sorted_newest_first entries)).

(** [display_file_listing]; [sorted] asks [os.path.getmtime] of every
    entry. *)
Definition display_file_listing (folder : folder_state) : result (list view) :=
  match folder with
  | Missing =>
      Ok [VSubheader "Current Directory Contents";
          VError "The specified folder path does not exist."]
  | NotAFolder => Raise "NotADirectoryError"
  | Folder entries =>
      match first_stat_error entries with
      | Some exn => Raise exn
      | None => Ok (VSubheader "Current Directory Contents" :: file_lines entries)
      end
  end.

(** [display_new_events]: one line for each retained event. *)
Definition display_new_events (lst : list FileSystemEvent) : list view :=
  VSubheader "New Events" ::
  map (fun event =>
         VText ("New event: " +:+ event_type event +:+ " - " +:+ src_path event)) lst.

(** The session state of file_viewer_0.py; the key [monitoring] is only
    there once a start or a stop has set it. *)
Record SessionState := {
  event_queue : list FileSystemEvent;
  observer : option nat;
  event_list : list FileSystemEvent;
  monitoring : option bool
}.

Record Process := {
  session : SessionState;
  threads : list ObserverThread
}.

Definition initial_process : Process :=
  {| session := {| event_queue := []; observer := None;
                   event_list := []; monitoring := None |};
     threads := [] |}.

(** ['monitoring' in st.session_state and st.session_state.monitoring] *)
Definition is_monitoring (s : SessionState) : bool :=
  match monitoring s with
  | Some b => b
  | None => false
  end.

(** The inner [check_events_and_update]: the same loop, nothing returned. *)
Fixpoint drain_loop (queue lst : list FileSystemEvent)
  : list FileSystemEvent * list FileSystemEvent :=
  match queue with
  | [] => (queue, lst)
  | event :: rest => drain_loop rest (lst ++ [event])
  end.

Definition check_events_and_update (s : SessionState) : SessionState :=
  let '(q, l) := drain_loop (event_queue s) (event_list s) in
  {| event_queue := q; observer := observer s; event_list := l;
     monitoring := monitoring s |}.

(** Lines 99-113 of [main]. *)
Definition controls (folder_path : string) (inp : RunInput) (p : Process)
  : Process * list ui :=
  let s := session p in
  if negb (is_monitoring s) then
    if st_button StartMonitoring inp then
      let '(ths, h) := start_observer folder_path (threads p) in
      ({| session := {| event_queue := event_queue s; observer := Some h;
                        event_list := event_list s; monitoring := Some true |};
          threads := ths |},
       [Success ("Started monitoring " +:+ folder_path)])
    else (p, [])
  else
    if st_button StopMonitoring inp then
      let ths := match observer s with
                 | Some h => stop_observer h (threads p)
                 | None => threads p
                 end in
      ({| session := {| event_queue := event_queue s; observer := None;
                        event_list := event_list s; monitoring := Some false |};
          threads := ths |},
       [Success "Stopped monitoring"])
    else (p, []).

(** The poll of [main], which comes after the controls. *)
Definition polled (p : Process) : Process :=
  if is_monitoring (session p)
  then {| session := check_events_and_update (session p); threads := threads p |}
  else p.

Record RunResult := {
  after : Process;
  out : list ui;
  new_events : list view;
  listing : list view;
  ending : outcome
}.

(** [main] of file_viewer_0.py. *)
Definition main (inp : RunInput) (p : Process) : RunResult :=
  let out0 := [Title "Real-Time File Viewer with Streamlit"] in
  let folder_path :=
    if String.eqb (folder_text inp) "" then "~/Downloads" else folder_text inp in
  if negb (fs_exists (fs inp) folder_path) then
    {| after := p;
       out := out0 ++ [Error "Please enter a valid folder path."];
       new_events := [];
       listing := [];
       ending := Stopped |}
  else
    let '(p1, out1) := controls folder_path inp p in
    let p2 := polled p1 in
    match display_file_listing (folder inp) with
    | Raise e =>
        {| after := p2;
           out := out0 ++ out1;
           new_events := display_new_events (event_list (session p2));
           listing := [];
           ending := Raised e |}
    | Ok lines =>
        {| after := p2;
           out := out0 ++ out1;
           new_events := display_new_events (event_list (session p2));
           listing := lines;
           ending := Completed |}
    end.

End Viewer0.

(** ** What the observers have put *)

Section Deliveries.

Variable yaml_safe_load : string -> result PyObj.
Variable expanduser : string -> string.

(** What a label adds to the queue in state [p]. *)
Definition delivery (l : label) (p : Process) : list FileEventWrapper :=
  match l with
  | Deliver h event t =>
      match threads p !! h with
      | Some th => if thread_alive th then on_any_event event t [] else []
      | None => []
      end
  | Rerun _ => []
  end.

(** The wrappers that the observers put during the labels, in order. *)
Fixpoint deliveries (ls : list label) (p : Process) : list FileEventWrapper :=
  match ls with
  | [] => []
  | l :: rest =>
      delivery l p ++ deliveries rest (step yaml_safe_load expanduser l p)
  end.

End Deliveries.

(** A configuration file that exists and is parsed to [config]. *)
Definition fs_with_config (folders : list string) : FileSystem :=
  {| fs_exists := fun p => String.eqb p ".file_viewer.yaml" || existsb (String.eqb p) folders;
     fs_read := fun p => if String.eqb p ".file_viewer.yaml" then Some "text" else None |}.

Definition entry (name suffix : string) (k : entry_kind) (mtime : Z) : DirEntry :=
  {| f_name := name; f_suffix := suffix; f_path := "/a/" +:+ name; f_kind := k;
     f_mtime := mtime; f_modified := mtime; f_size := 10;
     f_text := Ok "text"; f_csv := Ok "frame";
     f_stat_error := None; f_show_error := None |}.

(** The folder path of a run of file_viewer_0.py: the text of the field,
    or ["~/Downloads"] as written when the field is empty. *)
Definition viewer0_folder (inp : RunInput) : string :=
  if String.eqb (folder_text inp) "" then "~/Downloads" else folder_text inp.

(** The flag [events_processed] says whether the call has moved an event. *)
Definition flag_of (b : list FileEventWrapper) : bool :=
  match b with
  | [] => false
  | _ :: _ => true
  end.

Definition flag_ok (c : Interleaving.consumer) : Prop :=
  match c with
  | Interleaving.Outside => True
  | Interleaving.Testing ep b => ep = flag_of b
  | Interleaving.Getting ep b => ep = flag_of b
  end.

(** * Properties *)

(** ** Strings *)

Lemma append_assoc (a b c : string) : (a +:+ b) +:+ c = a +:+ (b +:+ c).
Proof. induction a as [|x a IH]; simpl; [reflexivity | now rewrite IH]. Qed.

Lemma append_nil_r (a : string) : a +:+ "" = a.
Proof. induction a as [|x a IH]; simpl; [reflexivity | now rewrite IH]. Qed.

Lemma prefix_iff (a b : string) :
  String.prefix a b = true <-> exists post, b = a +:+ post.
Proof.
  revert b. induction a as [|x a IH]; intros b.
  - split; [intros _; now exists b | intros _; now destruct b].
  - destruct b as [|y b]; cbn [String.prefix].
    + split; [discriminate | intros [post H]; discriminate].
    + destruct (ascii_dec x y) as [->|Hne].
      * rewrite IH. split; intros [post H]; exists post.
        -- now rewrite H.
        -- now inversion H.
      * split; [discriminate | intros [post H]; simpl in H; congruence].
Qed.

(** [contains] is Python's substring test. *)
Lemma contains_iff (needle hay : string) :
  Str.contains needle hay = true <->
  exists pre post, hay = pre +:+ needle +:+ post.
Proof.
  induction hay as [|c hay IH]; cbn [Str.contains].
  - rewrite orb_false_r, prefix_iff. split.
    + intros [post H]. now exists "", post.
    + intros [pre [post H]]. destruct pre; [now exists post | discriminate].
  - rewrite orb_true_iff, prefix_iff, IH. split.
    + intros [[post H] | [pre [post H]]].
      * now exists "", post.
      * exists (String c pre), post. simpl. now rewrite H.
    + intros [pre [post H]]. destruct pre as [|d pre]; simpl in H.
      * left. now exists post.
      * right. inversion H; subst. now exists pre, post.
Qed.

Lemma basename_from_split (acc p : string) :
  exists dir, acc +:+ p = dir +:+ Str.basename_from acc p.
Proof.
  revert acc. induction p as [|c p IH]; intros acc; simpl.
  - exists "". now rewrite append_nil_r.
  - destruct (Ascii.eqb c Str.slash).
    + destruct (IH "") as [dir H]. simpl in H.
      exists (acc +:+ String c dir). rewrite append_assoc. simpl. now rewrite <- H.
    + destruct (IH (acc +:+ String c "")) as [dir H].
      exists dir. rewrite <- H, append_assoc. reflexivity.
Qed.

(** A path ends with its last component. *)
Lemma basename_suffix (p : string) : exists dir, p = dir +:+ Str.basename p.
Proof. destruct (basename_from_split "" p) as [dir H]. now exists dir. Qed.

Lemma contains_basename (p : string) : Str.contains (Str.basename p) p = true.
Proof.
  apply contains_iff. destruct (basename_suffix p) as [dir H].
  exists dir, "". now rewrite append_nil_r.
Qed.

(** ** The handler of file_viewer.py *)

Lemma any_ignored_iff (path : string) :
  any_ignored path = true <->
  Str.contains ".DS_Store" path = true \/ Str.contains ".localized" path = true.
Proof.
  unfold any_ignored, ignore_list. simpl. rewrite orb_false_r, orb_true_iff.
  reflexivity.
Qed.

(** What the guard of the handler tests: the event is not for a directory
    and neither name occurs anywhere in its path. *)
Lemma accepts_iff (event : FileSystemEvent) :
  accepts event = true <->
  is_directory event = false /\
  forall ignored, In ignored ignore_list ->
    ~ exists pre post, src_path event = pre +:+ ignored +:+ post.
Proof.
  unfold accepts. rewrite andb_true_iff, !negb_true_iff. split.
  - intros [Hd Hi]. split; [exact Hd|]. intros ign Hin Hocc.
    apply contains_iff in Hocc.
    assert (any_ignored (src_path event) = true) as Habs.
    { unfold any_ignored. apply existsb_exists. now exists ign. }
    congruence.
  - intros [Hd Hno]. split; [exact Hd|].
    destruct (any_ignored (src_path event)) eqn:E; [|reflexivity].
    unfold any_ignored in E. apply existsb_exists in E as [ign [Hin Hc]].
    apply contains_iff in Hc. exfalso. now apply (Hno ign).
Qed.

(** A path whose last component is on the ignore list is suppressed by the
    handler: what the exact match ignores, the substring test ignores too. *)
Lemma ignored_by_name_any_ignored (path : string) :
  Spec.ignored_by_name path = true -> any_ignored path = true.
Proof.
  unfold Spec.ignored_by_name, any_ignored. intros H.
  apply existsb_exists in H as [ign [Hin Heq]].
  apply String.eqb_eq in Heq. apply existsb_exists. exists ign. split; [exact Hin|].
  rewrite <- Heq. apply contains_basename.
Qed.

Lemma accepts_normalizer_emits (event : FileSystemEvent) :
  accepts event = true -> Spec.normalizer_emits event = true.
Proof.
  unfold accepts, Spec.normalizer_emits. rewrite !andb_true_iff, !negb_true_iff.
  intros [Hd Hi]. split; [exact Hd|].
  destruct (Spec.ignored_by_name (src_path event)) eqn:E; [|reflexivity].
  apply ignored_by_name_any_ignored in E. congruence.
Qed.

Lemma on_any_event_accepted event t q :
  accepts event = true -> on_any_event event t q = q ++ [FileEventWrapper_init event t].
Proof. unfold on_any_event. now intros ->. Qed.

Lemma on_any_event_suppressed event t q :
  accepts event = false -> on_any_event event t q = q.
Proof. unfold on_any_event. now intros ->. Qed.

Lemma on_any_event_app event t q :
  on_any_event event t q = q ++ on_any_event event t [].
Proof.
  unfold on_any_event. destruct (accepts event); simpl;
    [reflexivity | now rewrite app_nil_r].
Qed.

(** C1: at the raw event for the file /tmp/watch/notes.localized.txt, which
    is not a directory event and whose file name is not on the ignore list,
    the specification's normalizer gives a record, and the handler of
    file_viewer.py queues nothing. *)
Theorem on_any_event_substring_suppresses :
  is_directory localized_notes = false /\
  Spec.ignored_by_name (src_path localized_notes) = false /\
  Spec.normalizer_emits localized_notes = true /\
  accepts localized_notes = false /\
  (forall t q, on_any_event localized_notes t q = q).
Proof.
  assert (accepts localized_notes = false) as Hacc by (vm_compute; reflexivity).
  split; [reflexivity|].
  split; [vm_compute; reflexivity|].
  split; [vm_compute; reflexivity|].
  split; [exact Hacc|].
  intros t q. now apply on_any_event_suppressed.
Qed.

(** ** The two handlers compared *)

Lemma handle_all_snoc evs et :
  handle_all (evs ++ [et]) = on_any_event (fst et) (snd et) (handle_all evs).
Proof. unfold handle_all. now rewrite fold_left_app. Qed.

Lemma handle_all_v0_snoc evs et :
  handle_all_v0 (evs ++ [et]) = V0.on_any_event (fst et) (handle_all_v0 evs).
Proof. unfold handle_all_v0. now rewrite fold_left_app. Qed.

(** file_viewer_0.py queues exactly the events that are not for directories. *)
Lemma handle_all_v0_filter evs :
  handle_all_v0 evs = List.filter (fun e => negb (is_directory e)) (map fst evs).
Proof.
  induction evs as [|et evs IH] using rev_ind; [reflexivity|].
  rewrite handle_all_v0_snoc, IH, map_app, List.filter_app.
  unfold V0.on_any_event. simpl. destruct (negb (is_directory (fst et)));
    [reflexivity | now rewrite app_nil_r].
Qed.

(** file_viewer.py queues the wrappers of the accepted events. *)
Lemma handle_all_filter evs :
  handle_all evs =
  map (fun et => FileEventWrapper_init (fst et) (snd et))
      (List.filter (fun et => accepts (fst et)) evs).
Proof.
  induction evs as [|et evs IH] using rev_ind; [reflexivity|].
  rewrite handle_all_snoc, IH, List.filter_app, map_app.
  unfold on_any_event. simpl. destruct (accepts (fst et));
    [reflexivity | now rewrite app_nil_r].
Qed.

Lemma raw_of_init event t :
  is_directory event = false -> raw_of (FileEventWrapper_init event t) = event.
Proof. destruct event as [ty path d]. simpl. intros ->. reflexivity. Qed.

(** C9: the handler of file_viewer_0.py queues exactly the events that are
    not directory events; the raw events behind the queue of file_viewer.py
    are those of that queue whose path holds no name of the ignore list, so
    they are among them; and on an event for .DS_Store the older handler
    queues the event while the newer queues nothing. *)
Theorem handlers_subset_not_equivalent :
  (forall evs,
     handle_all_v0 evs = List.filter (fun e => negb (is_directory e)) (map fst evs)) /\
  (forall evs,
     map raw_of (handle_all evs) =
     List.filter (fun e => negb (any_ignored (src_path e))) (handle_all_v0 evs)) /\
  (forall evs e, In e (map raw_of (handle_all evs)) -> In e (handle_all_v0 evs)) /\
  (forall t, V0.on_any_event ds_store_event [] = [ds_store_event] /\
             on_any_event ds_store_event t [] = []).
Proof.
  assert (forall evs,
     map raw_of (handle_all evs) =
     List.filter (fun e => negb (any_ignored (src_path e))) (handle_all_v0 evs)) as Hsub.
  { intros evs. rewrite handle_all_filter, handle_all_v0_filter.
    induction evs as [|[e t] evs IH]; [reflexivity|].
    cbn [List.filter map fst snd]. unfold accepts at 1.
    destruct (is_directory e) eqn:Hd; cbn [negb andb]; [exact IH|].
    cbn [List.filter]. destruct (any_ignored (src_path e)); cbn [negb map fst snd].
    - exact IH.
    - rewrite raw_of_init by exact Hd. now rewrite IH. }
  split; [exact handle_all_v0_filter|].
  split; [exact Hsub|].
  split.
  - intros evs e. rewrite Hsub. intros H. now apply List.filter_In in H.
  - intros t. split; vm_compute; reflexivity.
Qed.

(** ** Configuration *)

Lemma default_config_lookup (k : string) :
  default_config !! k =
  if String.eqb k "refresh_rate" then Some (VInt 15000)
  else if String.eqb k "starting_directory" then Some (VStr "~/Downloads")
  else None.
Proof.
  unfold default_config.
  destruct (String.eqb_spec k "refresh_rate") as [->|H1];
    [now rewrite lookup_insert_eq|].
  rewrite lookup_insert_ne by congruence.
  destruct (String.eqb_spec k "starting_directory") as [->|H2];
    [now rewrite lookup_insert_eq|].
  rewrite lookup_insert_ne by congruence. apply lookup_empty.
Qed.

(** C10: when [.file_viewer.yaml] does not exist, [load_config] returns the
    dictionary with [refresh_rate] 15000 and [starting_directory]
    ["~/Downloads"] and no other key, whatever the YAML library would do. *)
Theorem load_config_default (yaml_safe_load : string -> result PyObj) (f : FileSystem) :
  fs_exists f ".file_viewer.yaml" = false ->
  load_config yaml_safe_load f = Ok (PDict default_config) /\
  default_config !! "refresh_rate" = Some (VInt 15000) /\
  default_config !! "starting_directory" = Some (VStr "~/Downloads") /\
  (forall k, k <> "refresh_rate" -> k <> "starting_directory" ->
             default_config !! k = None).
Proof.
  intros Hno. unfold load_config, config_path. rewrite Hno.
  split; [reflexivity|].
  split; [now rewrite default_config_lookup|].
  split; [now rewrite default_config_lookup|].
  intros k H1 H2. rewrite default_config_lookup.
  destruct (String.eqb_spec k "refresh_rate"); [contradiction|].
  destruct (String.eqb_spec k "starting_directory"); [contradiction|reflexivity].
Qed.

(** With no file at all, the default configuration is loaded. *)
Lemma load_config_default_witness :
  fs_exists (fs_with ["/a"]) ".file_viewer.yaml" = false /\
  load_config yaml_none (fs_with ["/a"]) = Ok (PDict default_config).
Proof.
  split; [reflexivity|].
  apply (load_config_default yaml_none (fs_with ["/a"])). reflexivity.
Defined.

(** ** The consumer *)

Lemma drain_loop_spec (q l : list FileEventWrapper) (ep : bool) :
  drain_loop q l ep =
  ([], l ++ q, match q with [] => ep | _ :: _ => true end).
Proof.
  revert l ep. induction q as [|e q IH]; intros l ep; simpl.
  - now rewrite app_nil_r.
  - rewrite IH, <- app_assoc. simpl. now destruct q.
Qed.

Lemma check_events_and_update_eq (s : SessionState) :
  check_events_and_update s =
  ({| event_queue := []; observer := observer s;
      event_list := event_list s ++ event_queue s; monitoring := monitoring s |},
   match event_queue s with [] => false | _ :: _ => true end).
Proof. unfold check_events_and_update. now rewrite drain_loop_spec. Qed.

(** C8 (as the code has it): for every queue state, a call of
    [check_events_and_update] leaves the queue empty, appends the queued
    events to the history in queue order, so that the history grows by the
    number of queued events, leaves the observer handle and the monitoring
    flag alone, and returns the flag "some event was moved", not a count. *)
Theorem check_events_and_update_drains (s : SessionState) :
  event_queue (fst (check_events_and_update s)) = [] /\
  event_list (fst (check_events_and_update s)) = event_list s ++ event_queue s /\
  logged_count (fst (check_events_and_update s)) =
    (length (event_list s) + length (event_queue s))%nat /\
  observer (fst (check_events_and_update s)) = observer s /\
  monitoring (fst (check_events_and_update s)) = monitoring s /\
  snd (check_events_and_update s) =
    match event_queue s with [] => false | _ :: _ => true end.
Proof.
  rewrite check_events_and_update_eq. unfold logged_count. simpl.
  repeat split. now rewrite length_app.
Qed.

(** C8, as stated, fails: with two events queued the call ingests two
    events and returns [True], which is 1 as a number. *)
Lemma check_events_and_update_returns_flag :
  length (event_queue two_queued) = 2%nat /\
  event_list (fst (check_events_and_update two_queued)) = [event_at 1; event_at 2] /\
  snd (check_events_and_update two_queued) = true /\
  int_of_bool (snd (check_events_and_update two_queued)) <>
    Z.of_nat (length (event_queue two_queued)).
Proof. repeat split. discriminate. Qed.

(** A second call right after a call moves nothing and returns [False]. *)
Lemma check_events_and_update_twice (s : SessionState) :
  check_events_and_update (fst (check_events_and_update s)) =
  (fst (check_events_and_update s), false).
Proof.
  rewrite (check_events_and_update_eq s). simpl.
  rewrite check_events_and_update_eq. simpl. now rewrite app_nil_r.
Qed.

(** ** The window of the display *)

Lemma is_recent_iff (cutoff : datetime) (w : FileEventWrapper) :
  is_recent cutoff w = true <-> cutoff <= 1000000 * w_timestamp w.
Proof. unfold is_recent, strptime_S. rewrite Z.leb_le. lia. Qed.

Lemma filter_sublist {A} (f : A -> bool) (l : list A) : sublist (List.filter f l) l.
Proof.
  induction l as [|x l IH]; simpl; [constructor|].
  destruct (f x); now constructor.
Qed.

(** C3 (as the code has it): at clock time [t] the display lists, in arrival
    order, exactly the retained events whose timestamp is at or after
    [t] minus five minutes; the five minutes (300 seconds) are a constant
    of the function, which takes no cutoff and no window. *)
Theorem recent_events_five_minute_window (t : datetime) (lst : list FileEventWrapper) :
  recent_events t lst = map to_dict (Spec.query_since (t - timedelta_seconds 300) lst) /\
  recent_wrappers t lst = Spec.recent_events_window 300 t lst /\
  sublist (recent_wrappers t lst) lst /\
  (forall w, In w (recent_wrappers t lst) <->
             In w lst /\ t - 300000000 <= 1000000 * w_timestamp w).
Proof.
  split; [reflexivity|]. split; [reflexivity|].
  split; [apply filter_sublist|].
  intros w. unfold recent_wrappers. rewrite List.filter_In, is_recent_iff.
  unfold timedelta_minutes. change (5 * 60 * 1000000) with 300000000.
  reflexivity.
Qed.

(** C3, as stated, fails: a query with cutoff second 0 would return the
    event of second 100, but at clock time second 1000 the display, which
    has no cutoff to set, lists nothing. *)
Lemma recent_events_cutoff_fixed :
  Spec.query_since (strptime_S 0) [event_at 100] = [event_at 100] /\
  recent_wrappers (strptime_S 1000) [event_at 100] = [] /\
  recent_events (strptime_S 1000) [event_at 100] = [] /\
  display_recent_events (strptime_S 1000) [event_at 100] =
    [Subheader "New Events"; Info "No events in the last 5 minutes."].
Proof. repeat split. Qed.

(** C4 (as the code has it): with retained events stamped T-10s, T-4min and
    T-10min, the display at a clock time within the second T lists the
    T-4min and the T-10s events, in arrival order, and not the T-10min one. *)
Theorem window_three_events (T us : Z) (a b c : FileEventWrapper) :
  0 <= us < 1000000 ->
  w_timestamp a = T - 10 ->
  w_timestamp b = T - 240 ->
  w_timestamp c = T - 600 ->
  recent_wrappers (strptime_S T + us) [c; b; a] = [b; a] /\
  recent_wrappers (strptime_S T + us) [a; b; c] = [a; b] /\
  recent_events (strptime_S T + us) [c; b; a] = [to_dict b; to_dict a] /\
  Spec.recent_events_window 300 (strptime_S T + us) [c; b; a] = [b; a].
Proof.
  intros Hus Ha Hb Hc.
  assert (is_recent (strptime_S T + us - timedelta_minutes 5) a = true) as Ra.
  { apply is_recent_iff. unfold strptime_S, timedelta_minutes. lia. }
  assert (is_recent (strptime_S T + us - timedelta_minutes 5) b = true) as Rb.
  { apply is_recent_iff. unfold strptime_S, timedelta_minutes. lia. }
  assert (is_recent (strptime_S T + us - timedelta_minutes 5) c = false) as Rc.
  { apply not_true_is_false. rewrite is_recent_iff.
    unfold strptime_S, timedelta_minutes. lia. }
  assert (recent_wrappers (strptime_S T + us) [c; b; a] = [b; a]) as H1.
  { unfold recent_wrappers. simpl. now rewrite Ra, Rb, Rc. }
  split; [exact H1|].
  split; [unfold recent_wrappers; simpl; now rewrite Ra, Rb, Rc|].
  split; [unfold recent_events; now rewrite H1|].
  exact H1.
Qed.

(** T = second 1000, with events of the seconds 400, 760 and 990. *)
Lemma window_three_events_witness :
  recent_wrappers (strptime_S 1000 + 0) [event_at 400; event_at 760; event_at 990]
  = [event_at 760; event_at 990].
Proof.
  apply (window_three_events 1000 0 (event_at 990) (event_at 760) (event_at 400));
    [lia | reflexivity | reflexivity | reflexivity].
Defined.

(** C4, as stated, fails: at T = second 1000 the display lists two events,
    those of T-4min and T-10s, not the T-4min event alone. *)
Lemma window_three_events_not_single :
  recent_wrappers (strptime_S 1000) [event_at 400; event_at 760; event_at 990]
    = [event_at 760; event_at 990] /\
  recent_wrappers (strptime_S 1000) [event_at 400; event_at 760; event_at 990]
    <> [event_at 760] /\
  recent_events (strptime_S 1000) [event_at 400; event_at 760; event_at 990]
    <> [to_dict (event_at 760)].
Proof.
  split; [reflexivity|]. split; [discriminate|].
  unfold recent_events.
  replace (recent_wrappers (strptime_S 1000) [event_at 400; event_at 760; event_at 990])
    with [event_at 760; event_at 990] by reflexivity.
  simpl. discriminate.
Qed.

(** ** Runs of [main] *)

Section MainFacts.

Variable expanduser : string -> string.

Lemma main_polled config inp p :
  reaches_controls expanduser config inp = false ->
  after (main expanduser config inp p) = polled p.
Proof.
  unfold reaches_controls, main, polled.
  destruct (subscript config "starting_directory"); [|reflexivity].
  destruct (_ || _); [reflexivity | discriminate].
Qed.

Lemma main_controls config inp p :
  reaches_controls expanduser config inp = true ->
  after (main expanduser config inp p) =
  fst (controls (expanduser (folder_text inp)) inp (polled p)).
Proof.
  unfold reaches_controls, main. fold (polled p).
  destruct (subscript config "starting_directory"); [|discriminate].
  destruct (_ || _); [discriminate|]. intros _.
  destruct (controls _ inp (polled p)) as [p2 out2].
  destruct (subscript config "refresh_rate") as [rate|]; [|reflexivity].
  destruct (negb (slider_accepts inp rate)); [reflexivity|].
  destruct (display_file_listing_as_tree (folder inp)); [|reflexivity].
  now destruct (display_latest_file (folder inp)).
Qed.

Lemma polled_idle p : monitoring (session p) = false -> polled p = p.
Proof. unfold polled. now intros ->. Qed.

Lemma polled_monitoring p : monitoring (session (polled p)) = monitoring (session p).
Proof.
  unfold polled. destruct (monitoring (session p)) eqn:E; [|exact E].
  simpl. rewrite check_events_and_update_eq. exact E.
Qed.

Lemma polled_observer p : observer (session (polled p)) = observer (session p).
Proof.
  unfold polled. destruct (monitoring (session p)); [|reflexivity].
  simpl. now rewrite check_events_and_update_eq.
Qed.

Lemma polled_threads p : threads (polled p) = threads p.
Proof. unfold polled. now destruct (monitoring (session p)). Qed.

Lemma controls_no_click path inp p :
  clicked inp = None -> controls path inp p = (p, []).
Proof.
  intros Hc. unfold controls, st_button. rewrite Hc.
  now destruct (negb (monitoring (session p))).
Qed.

(** A run whose controls do nothing is the run of a refresh. *)
Lemma main_same_as_refresh config inp p :
  controls (expanduser (folder_text inp)) inp (polled p) = (polled p, []) ->
  main expanduser config inp p = main expanduser config (without_click inp) p.
Proof.
  intros H. unfold main. fold (polled p). rewrite H.
  rewrite (controls_no_click _ (without_click inp) (polled p) eq_refl).
  reflexivity.
Qed.

End MainFacts.

(** ** Starting and stopping *)

(** After [stop()] the join returns, with the thread terminated. *)
Lemma stop_observer_call_returns (t : ObserverThread) :
  stop_observer_call t = Some {| watch_path := watch_path t; status := Terminated |}.
Proof.
  unfold stop_observer_call, observer_join, observer_stop. cbn.
  now destruct (status t).
Qed.

Lemma stop_observer_lookup h ths th :
  ths !! h = Some th ->
  stop_observer h ths !! h = Some {| watch_path := watch_path th; status := Terminated |}.
Proof.
  intros H. unfold stop_observer.
  rewrite list_lookup_alter, H.
  destruct (decide (h = h)); [|congruence].
  cbn. now rewrite stop_observer_call_returns.
Qed.

Lemma stop_observer_other h i ths :
  i <> h -> stop_observer h ths !! i = ths !! i.
Proof.
  intros H. unfold stop_observer.
  now rewrite list_lookup_alter_ne by congruence.
Qed.

Lemma stop_observer_idempotent h ths :
  stop_observer h (stop_observer h ths) = stop_observer h ths.
Proof.
  apply list_eq. intros i. destruct (decide (i = h)) as [->|Hne].
  - destruct (ths !! h) as [th|] eqn:E.
    + rewrite (stop_observer_lookup h _ _ (stop_observer_lookup h ths th E)).
      now rewrite (stop_observer_lookup h ths th E).
    + unfold stop_observer. rewrite !list_lookup_alter, E.
      now destruct (decide (h = h)).
  - now rewrite !stop_observer_other.
Qed.

(** C5 (as the code has it): a run of [main] in a session that is not
    monitoring keeps the retained events and the queue as they are; when the
    run is the click on "Start Monitoring" and comes to the controls, the
    session is monitoring afterwards, with a new running observer on the
    folder path, and the history is the one from before the start. *)
Theorem start_monitoring_keeps_history (expanduser : string -> string)
    (config : PyObj) (inp : RunInput) (p : Process) :
  monitoring (session p) = false ->
  clicked inp = Some StartMonitoring ->
  reaches_controls expanduser config inp = true ->
  monitoring (session (after (main expanduser config inp p))) = true /\
  observer (session (after (main expanduser config inp p))) = Some (length (threads p)) /\
  threads (after (main expanduser config inp p)) !! length (threads p) =
    Some {| watch_path := expanduser (folder_text inp); status := Running |} /\
  event_list (session (after (main expanduser config inp p))) = event_list (session p) /\
  event_queue (session (after (main expanduser config inp p))) = event_queue (session p).
Proof.
  intros Hm Hc Hr. rewrite (main_controls expanduser config inp p Hr).
  rewrite (polled_idle p Hm). unfold controls, st_button.
  rewrite Hm, Hc. simpl. repeat split.
  rewrite lookup_app_r by lia. now rewrite Nat.sub_diag.
Qed.

(** A start on /a after the first session keeps its history. *)
Lemma start_monitoring_keeps_history_witness :
  event_list (session (after (main expanduser_id (PDict default_config)
     (click (Some StartMonitoring) "/a" (strptime_S 1030)) after_first_session)))
  = event_list (session after_first_session).
Proof.
  apply (start_monitoring_keeps_history expanduser_id (PDict default_config)
           (click (Some StartMonitoring) "/a" (strptime_S 1030)) after_first_session);
    vm_compute; reflexivity.
Defined.

(** C5, as stated, fails: after a first session that retained the event for
    report.txt and was stopped, a new start leaves the session monitoring
    with that event still in the history, and the display of that run
    shows it. *)
Lemma start_monitoring_history_not_empty :
  monitoring (session after_first_session) = false /\
  event_list (session after_first_session)
    = [FileEventWrapper_init report_event (strptime_S 1010)] /\
  monitoring (session (after (script_run yaml_none expanduser_id
     (click (Some StartMonitoring) "/a" (strptime_S 1030)) after_first_session))) = true /\
  event_list (session (after (script_run yaml_none expanduser_id
     (click (Some StartMonitoring) "/a" (strptime_S 1030)) after_first_session)))
    <> [] /\
  In (Dataframe [to_dict (FileEventWrapper_init report_event (strptime_S 1010))])
     (out (script_run yaml_none expanduser_id
        (click (Some StartMonitoring) "/a" (strptime_S 1030)) after_first_session)).
Proof.
  split; [vm_compute; reflexivity|].
  split; [vm_compute; reflexivity|].
  split; [vm_compute; reflexivity|].
  split.
  - vm_compute. discriminate.
  - vm_compute. do 3 right. left. reflexivity.
Qed.

Lemma controls_start_while_active path inp p :
  monitoring (session p) = true ->
  clicked inp = Some StartMonitoring ->
  controls path inp p = (p, []).
Proof.
  intros Hm Hc. unfold controls, st_button. now rewrite Hm, Hc.
Qed.

(** C6 (as the code has it): while the session is monitoring, a run caused
    by a click on "Start Monitoring" starts nothing and reports nothing of
    its own: the controls leave the state as it is and give no message, the
    whole run is the run of a refresh with no click, and after it the
    observer handle, the monitoring flag and the observer threads are as
    before, so the observer still watches its path; the run only polls the
    queue. *)
Theorem start_while_monitoring_no_effect (expanduser : string -> string)
    (config : PyObj) (inp : RunInput) (p : Process) :
  monitoring (session p) = true ->
  clicked inp = Some StartMonitoring ->
  (forall path, controls path inp p = (p, [])) /\
  main expanduser config inp p = main expanduser config (without_click inp) p /\
  after (main expanduser config inp p) = polled p /\
  observer (session (after (main expanduser config inp p))) = observer (session p) /\
  monitoring (session (after (main expanduser config inp p))) = true /\
  threads (after (main expanduser config inp p)) = threads p.
Proof.
  intros Hm Hc.
  assert (after (main expanduser config inp p) = polled p) as Hafter.
  { destruct (reaches_controls expanduser config inp) eqn:Hr.
    - rewrite (main_controls expanduser config inp p Hr).
      rewrite controls_start_while_active; [reflexivity | | exact Hc].
      now rewrite polled_monitoring.
    - now apply main_polled. }
  split; [intros path; now apply controls_start_while_active|].
  split.
  - apply main_same_as_refresh. apply controls_start_while_active; [|exact Hc].
    now rewrite polled_monitoring.
  - rewrite Hafter, polled_observer, polled_monitoring, polled_threads.
    repeat split; assumption.
Qed.

(** A start on /b while /a is watched leaves the threads as they are. *)
Lemma start_while_monitoring_no_effect_witness :
  threads (after (main expanduser_id (PDict default_config)
     (click (Some StartMonitoring) "/b" (strptime_S 1005)) watching_a))
  = threads watching_a.
Proof.
  apply (start_while_monitoring_no_effect expanduser_id (PDict default_config)
           (click (Some StartMonitoring) "/b" (strptime_S 1005)) watching_a);
    vm_compute; reflexivity.
Defined.

(** C6, as stated, fails: with a session watching /a, the run for a start
    on /b, an existing folder, completes, reports no error at all, and
    leaves the one observer running on /a. *)
Lemma start_while_monitoring_no_error :
  threads watching_a = [{| watch_path := "/a"; status := Running |}] /\
  ending (script_run yaml_none expanduser_id
            (click (Some StartMonitoring) "/b" (strptime_S 1005)) watching_a)
    = Completed /\
  out (script_run yaml_none expanduser_id
         (click (Some StartMonitoring) "/b" (strptime_S 1005)) watching_a)
    = [Title "Enhanced Real-Time File Viewer"; Subheader "New Events"] /\
  after (script_run yaml_none expanduser_id
           (click (Some StartMonitoring) "/b" (strptime_S 1005)) watching_a)
    = watching_a /\
  ~ Spec.fails (script_run yaml_none expanduser_id
                  (click (Some StartMonitoring) "/b" (strptime_S 1005)) watching_a).
Proof.
  split; [vm_compute; reflexivity|].
  split; [vm_compute; reflexivity|].
  split; [vm_compute; reflexivity|].
  split; [vm_compute; reflexivity|].
  intros [[e H] | [[m H] | [m H]]].
  - vm_compute in H. discriminate.
  - vm_compute in H. destruct H as [H | [H | []]]; discriminate.
  - vm_compute in H. repeat (destruct H as [H | H]; [discriminate|]). exact H.
Qed.

Lemma controls_stop path inp p :
  monitoring (session p) = true ->
  clicked inp = Some StopMonitoring ->
  controls path inp p =
  ({| session := {| event_queue := event_queue (session p); observer := None;
                    event_list := event_list (session p); monitoring := false |};
      threads := match observer (session p) with
                 | Some h => stop_observer h (threads p)
                 | None => threads p
                 end |},
   [Success "Stopped monitoring"]).
Proof.
  intros Hm Hc. unfold controls, st_button. now rewrite Hm, Hc.
Qed.

Lemma controls_stop_while_idle path inp p :
  monitoring (session p) = false ->
  clicked inp = Some StopMonitoring ->
  controls path inp p = (p, []).
Proof.
  intros Hm Hc. unfold controls, st_button. now rewrite Hm, Hc.
Qed.

(** C7: in a monitoring session the stop made by a click on "Stop
    Monitoring" clears the observer handle and the monitoring flag and
    reports "Stopped monitoring"; [stop_observer] has asked the thread of
    the observer to stop and its join has returned, so the thread is
    terminated. A second stop right after it does nothing and reports
    nothing: the controls leave the idle state as it is, the whole second
    run changes no state and is the run of a refresh with no click, and
    stopping the observer again changes no thread. *)
Theorem stop_monitoring_idempotent (expanduser : string -> string)
    (config : PyObj) (path1 path2 : string) (inp1 inp2 : RunInput) (p : Process) :
  monitoring (session p) = true ->
  clicked inp1 = Some StopMonitoring ->
  clicked inp2 = Some StopMonitoring ->
  let p1 := fst (controls path1 inp1 p) in
  (observer (session p1) = None /\
   monitoring (session p1) = false /\
   snd (controls path1 inp1 p) = [Success "Stopped monitoring"] /\
   forall h th, observer (session p) = Some h -> threads p !! h = Some th ->
     stop_observer_call th
       = Some {| watch_path := watch_path th; status := Terminated |} /\
     threads p1 !! h =
       Some {| watch_path := watch_path th; status := Terminated |}) /\
  (controls path2 inp2 p1 = (p1, []) /\
   after (main expanduser config inp2 p1) = p1 /\
   main expanduser config inp2 p1 = main expanduser config (without_click inp2) p1 /\
   observer (session (after (main expanduser config inp2 p1))) = None /\
   monitoring (session (after (main expanduser config inp2 p1))) = false) /\
  (forall h, observer (session p) = Some h ->
             stop_observer h (threads p1) = threads p1).
Proof.
  intros Hm Hc1 Hc2 p1.
  assert (p1 = {| session := {| event_queue := event_queue (session p);
                               observer := None;
                               event_list := event_list (session p);
                               monitoring := false |};
                  threads := match observer (session p) with
                             | Some h => stop_observer h (threads p)
                             | None => threads p
                             end |}) as H1.
  { unfold p1. now rewrite controls_stop. }
  assert (monitoring (session p1) = false) as Hidle by now rewrite H1.
  assert (after (main expanduser config inp2 p1) = p1) as H2.
  { destruct (reaches_controls expanduser config inp2) eqn:Hr.
    - rewrite (main_controls expanduser config inp2 p1 Hr).
      rewrite (polled_idle _ Hidle). now rewrite controls_stop_while_idle.
    - rewrite (main_polled expanduser config inp2 p1 Hr). now apply polled_idle. }
  split; [|split].
  - split; [now rewrite H1|]. split; [exact Hidle|].
    split; [now rewrite controls_stop|].
    intros h th Hh Hth. split; [apply stop_observer_call_returns|].
    rewrite H1. cbn [threads]. rewrite Hh. now apply stop_observer_lookup.
  - split; [now apply controls_stop_while_idle|]. split; [exact H2|].
    split.
    + apply main_same_as_refresh. rewrite (polled_idle _ Hidle).
      now apply controls_stop_while_idle.
    + rewrite H2. split; [now rewrite H1 | exact Hidle].
  - intros h Hh. rewrite H1. cbn [threads]. rewrite Hh.
    apply stop_observer_idempotent.
Qed.

(** Two stops in a row on the session that watches /a. *)
Lemma stop_monitoring_idempotent_witness :
  controls "/a" (click (Some StopMonitoring) "/a" (strptime_S 1025))
    (fst (controls "/a" (click (Some StopMonitoring) "/a" (strptime_S 1020)) watching_a))
  = (fst (controls "/a" (click (Some StopMonitoring) "/a" (strptime_S 1020)) watching_a),
     []).
Proof.
  apply (stop_monitoring_idempotent expanduser_id (PDict default_config) "/a" "/a"
           (click (Some StopMonitoring) "/a" (strptime_S 1020))
           (click (Some StopMonitoring) "/a" (strptime_S 1025)) watching_a);
    vm_compute; reflexivity.
Defined.

(** ** Producer and consumer interleaved *)

Section Schedules.

Import Interleaving.

Lemma run_app (a b : list turn) (s : Pipe) :
  run (a ++ b) s =
  (fst (run b (fst (run a s))), snd (run a s) ++ snd (run b (fst (run a s)))).
Proof.
  revert s. induction a as [|t a IH]; intros s; simpl.
  - now destruct (run b s).
  - destruct (turn_step t s) as [s1 o]. rewrite IH.
    destruct (run a s1) as [s2 ds]. simpl.
    now destruct o.
Qed.

Lemma pushes_app (a b : list turn) : pushes (a ++ b) = pushes a ++ pushes b.
Proof.
  induction a as [|[e t|] a IH]; simpl; [reflexivity | | exact IH].
  now rewrite IH, app_assoc.
Qed.

Lemma pushes_consumer_only n : pushes (consumer_only n) = [].
Proof. induction n; [reflexivity | exact IHn]. Qed.

Lemma moved_cons d ds : moved (d :: ds) = fst d ++ moved ds.
Proof. reflexivity. Qed.

(** Nothing is lost, doubled or reordered by a step: what was moved, what
    the running call holds and what waits make up, in this order, what was
    there and what has been put since. *)
Lemma run_conserves (sch : list turn) (s : Pipe) :
  moved (snd (run sch s)) ++ batch_of (pc (fst (run sch s))) ++ queue (fst (run sch s))
  = batch_of (pc s) ++ queue s ++ pushes sch.
Proof.
  revert s. induction sch as [|t sch IH]; intros s.
  - simpl. now rewrite app_nil_r.
  - cbn [run pushes]. destruct t as [e tm|].
    + cbn [turn_step]. specialize (IH (producer_step e tm s)).
      destruct (run sch (producer_step e tm s)) as [s2 ds]. cbn [fst snd] in *.
      rewrite IH. cbn [producer_step pc queue].
      rewrite (on_any_event_app e tm (queue s)). now rewrite <- !app_assoc.
    + cbn [turn_step]. unfold consumer_step.
      destruct s as [q h c]. cbn [pc queue history].
      destruct c as [|ep b|ep b].
      * specialize (IH {| queue := q; history := h; pc := Testing false [] |}).
        destruct (run sch _) as [s2 ds]. cbn [fst snd] in *. exact IH.
      * destruct q as [|e q].
        -- specialize (IH {| queue := []; history := h; pc := Outside |}).
           destruct (run sch _) as [s2 ds]. cbn [fst snd] in *.
           rewrite moved_cons. cbn [fst batch_of pc queue] in *.
           rewrite <- app_assoc, IH. reflexivity.
        -- specialize (IH {| queue := e :: q; history := h; pc := Getting ep b |}).
           destruct (run sch _) as [s2 ds]. cbn [fst snd] in *. exact IH.
      * destruct q as [|e q].
        -- specialize (IH {| queue := []; history := h; pc := Getting ep b |}).
           destruct (run sch _) as [s2 ds]. cbn [fst snd] in *. exact IH.
        -- specialize (IH {| queue := q; history := h ++ [e];
                             pc := Testing true (b ++ [e]) |}).
           destruct (run sch _) as [s2 ds]. cbn [fst snd] in *.
           rewrite IH. cbn [batch_of pc queue]. now rewrite <- !app_assoc.
Qed.

(** The history is what it was, then what the calls have moved. *)
Lemma run_history (sch : list turn) (s : Pipe) (pre : list FileEventWrapper) :
  history s = pre ++ batch_of (pc s) ->
  history (fst (run sch s)) =
  pre ++ moved (snd (run sch s)) ++ batch_of (pc (fst (run sch s))).
Proof.
  revert s pre. induction sch as [|t sch IH]; intros s pre Hs.
  - simpl. exact Hs.
  - cbn [run]. destruct t as [e tm|].
    + cbn [turn_step]. specialize (IH (producer_step e tm s) pre Hs).
      now destruct (run sch (producer_step e tm s)) as [s2 ds].
    + cbn [turn_step]. unfold consumer_step.
      destruct s as [q h c]. cbn [pc queue history] in *.
      destruct c as [|ep b|ep b]; cbn [batch_of] in Hs.
      * specialize (IH {| queue := q; history := h; pc := Testing false [] |} pre Hs).
        now destruct (run sch _) as [s2 ds].
      * destruct q as [|e q].
        -- specialize (IH {| queue := []; history := h; pc := Outside |} (pre ++ b)).
           destruct (run sch _) as [s2 ds]. cbn [fst snd] in *.
           rewrite moved_cons. cbn [fst]. rewrite IH.
           ++ now rewrite <- !app_assoc.
           ++ cbn [history pc batch_of]. now rewrite app_nil_r.
        -- specialize (IH {| queue := e :: q; history := h; pc := Getting ep b |} pre Hs).
           now destruct (run sch _) as [s2 ds].
      * destruct q as [|e q].
        -- specialize (IH {| queue := []; history := h; pc := Getting ep b |} pre Hs).
           now destruct (run sch _) as [s2 ds].
        -- specialize (IH {| queue := q; history := h ++ [e];
                             pc := Testing true (b ++ [e]) |} pre).
           destruct (run sch _) as [s2 ds]. cbn [fst snd] in *.
           apply IH. cbn [history pc batch_of]. rewrite Hs. now rewrite <- !app_assoc.
Qed.

Lemma turn_step_ready (t : turn) (s : Pipe) : ready s -> ready (fst (turn_step t s)).
Proof.
  unfold ready. destruct t as [e tm|]; cbn [turn_step fst].
  - cbn [producer_step pc queue]. destruct (pc s); try exact id.
    intros Hq. rewrite on_any_event_app. now destruct (queue s).
  - unfold consumer_step. destruct s as [q h c]. cbn [pc queue history].
    destruct c as [|ep b|ep b]; intros Hq.
    + exact I.
    + destruct q; cbn [fst pc queue]; [exact I | discriminate].
    + destruct q; [contradiction | exact I].
Qed.

Lemma run_ready (sch : list turn) (s : Pipe) : ready s -> ready (fst (run sch s)).
Proof.
  revert s. induction sch as [|t sch IH]; intros s Hs; [exact Hs|].
  cbn [run]. pose proof (turn_step_ready t s Hs) as H1.
  destruct (turn_step t s) as [s1 o]. specialize (IH s1 H1).
  now destruct (run sch s1).
Qed.

(** Left alone at the test of the loop, the consumer empties the queue in
    [2 * length q + 1] actions and returns. *)
Lemma consumer_alone_testing (q h b : list FileEventWrapper) (ep : bool) :
  run (consumer_only (S (2 * length q)))
      {| queue := q; history := h; pc := Testing ep b |}
  = ({| queue := []; history := h ++ q; pc := Outside |},
     [(b ++ q, match q with [] => ep | _ :: _ => true end)]).
Proof.
  revert h b ep. induction q as [|e q IH]; intros h b ep.
  - simpl. now rewrite !app_nil_r.
  - replace (S (2 * length (e :: q))) with (S (S (S (2 * length q))))
      by (simpl; lia).
    change (consumer_only (S (S (S (2 * length q)))))
      with (C :: C :: consumer_only (S (2 * length q))).
    cbn [run turn_step consumer_step pc queue history].
    rewrite IH. rewrite <- !app_assoc. simpl. now destruct q.
Qed.

Lemma consumer_alone_outside (q h : list FileEventWrapper) :
  run (consumer_only (S (S (2 * length q))))
      {| queue := q; history := h; pc := Outside |}
  = ({| queue := []; history := h ++ q; pc := Outside |},
     [(q, match q with [] => false | _ :: _ => true end)]).
Proof.
  change (consumer_only (S (S (2 * length q))))
    with (C :: consumer_only (S (2 * length q))).
  cbn [run turn_step consumer_step pc queue history].
  now rewrite consumer_alone_testing.
Qed.

(** The consumer, left alone, does what [check_events_and_update] does. *)
Lemma consumer_alone_check_events_and_update (s : SessionState) :
  run (consumer_only (S (S (2 * length (event_queue s)))))
      {| queue := event_queue s; history := event_list s; pc := Outside |}
  = ({| queue := event_queue (fst (check_events_and_update s));
        history := event_list (fst (check_events_and_update s));
        pc := Outside |},
     [(event_queue s, snd (check_events_and_update s))]).
Proof. rewrite consumer_alone_outside, check_events_and_update_eq. reflexivity. Qed.

(** From any state that a schedule can lead to, the consumer left alone
    comes to the end of a call with the queue empty. *)
Lemma consumer_alone_finishes (s : Pipe) :
  ready s ->
  exists n, pc (fst (run (consumer_only n) s)) = Outside /\
            queue (fst (run (consumer_only n) s)) = [].
Proof.
  destruct s as [q h c]. unfold ready. cbn [pc queue].
  destruct c as [|ep b|ep b]; intros Hq.
  - exists (S (S (2 * length q))). now rewrite consumer_alone_outside.
  - exists (S (2 * length q)). now rewrite consumer_alone_testing.
  - destruct q as [|e q]; [contradiction|].
    exists (S (S (2 * length q))).
    change (consumer_only (S (S (2 * length q))))
      with (C :: consumer_only (S (2 * length q))).
    cbn [run turn_step consumer_step pc queue history].
    now rewrite consumer_alone_testing.
Qed.

End Schedules.

(** C2: for every schedule of puts by the producer and actions of the
    consumer, from an empty queue and an empty history: the events moved by
    the finished calls, then those moved by the running call, then those
    still queued are exactly the events put, in the order of the puts; the
    history holds the moved events in that order; once the consumer is
    between calls with the queue empty the moved events are all the puts;
    the consumer left alone always comes to that point; and a call that
    follows the end of a call with no put in between moves nothing. *)
Theorem drains_deliver_pushes_in_order (sch : list Interleaving.turn) :
  let s := fst (Interleaving.run sch Interleaving.start) in
  let ds := snd (Interleaving.run sch Interleaving.start) in
  moved ds ++ Interleaving.batch_of (Interleaving.pc s) ++ Interleaving.queue s
    = Interleaving.pushes sch /\
  Interleaving.history s = moved ds ++ Interleaving.batch_of (Interleaving.pc s) /\
  (Interleaving.pc s = Interleaving.Outside -> Interleaving.queue s = [] ->
   moved ds = Interleaving.pushes sch) /\
  (exists n,
     let r := Interleaving.run (sch ++ Interleaving.consumer_only n) Interleaving.start in
     Interleaving.pc (fst r) = Interleaving.Outside /\
     Interleaving.queue (fst r) = [] /\
     moved (snd r) = Interleaving.pushes sch /\
     Interleaving.history (fst r) = Interleaving.pushes sch) /\
  (forall d s', Interleaving.consumer_step s = (s', Some d) ->
     Interleaving.run [Interleaving.C; Interleaving.C] s' = (s', [([], false)])).
Proof.
  intros s ds.
  pose proof (run_conserves sch Interleaving.start) as Hc.
  pose proof (run_history sch Interleaving.start [] eq_refl) as Hh.
  fold s ds in Hc, Hh. cbn [Interleaving.start Interleaving.pc Interleaving.queue
    Interleaving.batch_of app] in Hc. cbn [app] in Hh.
  split; [exact Hc|]. split; [exact Hh|]. split; [|split].
  - intros Hpc Hq. rewrite Hpc, Hq in Hc. cbn [Interleaving.batch_of app] in Hc.
    now rewrite app_nil_r in Hc.
  - assert (ready s) as Hr by (apply run_ready; exact I).
    destruct (consumer_alone_finishes s Hr) as [n [Hpc Hq]].
    exists n. cbn zeta.
    pose proof (run_conserves (sch ++ Interleaving.consumer_only n) Interleaving.start) as Hc'.
    pose proof (run_history (sch ++ Interleaving.consumer_only n) Interleaving.start
                  [] eq_refl) as Hh'.
    rewrite pushes_app, pushes_consumer_only, app_nil_r in Hc'.
    rewrite run_app in *. cbn [fst snd] in *. fold s in Hc', Hh' |- *.
    rewrite Hpc, Hq in Hc'. rewrite Hpc in Hh'.
    cbn [Interleaving.start Interleaving.pc Interleaving.queue
         Interleaving.batch_of app] in Hc', Hh'.
    rewrite app_nil_r in Hc', Hh'.
    split; [exact Hpc|]. split; [exact Hq|]. split; [exact Hc'|].
    now rewrite Hh'.
  - intros d s' Hstep. unfold Interleaving.consumer_step in Hstep.
    destruct s as [q h c]. cbn [Interleaving.pc Interleaving.queue
      Interleaving.history] in Hstep.
    destruct c as [|ep b|ep b].
    + discriminate.
    + destruct q; [|discriminate]. inversion Hstep; subst. reflexivity.
    + destruct q; discriminate.
Qed.

(** ** Invariants of reachable states *)

Section Reachable.

Variable yaml_safe_load : string -> result PyObj.
Variable expanduser : string -> string.

Lemma controls_events path inp p :
  event_queue (session (fst (controls path inp p))) = event_queue (session p) /\
  event_list (session (fst (controls path inp p))) = event_list (session p).
Proof.
  unfold controls. destruct (negb (monitoring (session p))).
  - destruct (st_button StartMonitoring inp); [|now split].
    now destruct (start_observer path (threads p)).
  - now destruct (st_button StopMonitoring inp).
Qed.

Lemma polled_events p :
  event_queue (session (polled p)) ++ event_list (session (polled p))
  = event_list (session p) ++ event_queue (session p) \/
  (event_queue (session (polled p)) = event_queue (session p) /\
   event_list (session (polled p)) = event_list (session p)).
Proof.
  unfold polled. destruct (monitoring (session p)); [left | now right].
  simpl. now rewrite check_events_and_update_eq.
Qed.

Lemma script_run_after inp p :
  after (script_run yaml_safe_load expanduser inp p) = p \/
  after (script_run yaml_safe_load expanduser inp p) = polled p \/
  after (script_run yaml_safe_load expanduser inp p)
    = fst (controls (expanduser (folder_text inp)) inp (polled p)).
Proof.
  unfold script_run. destruct (load_config yaml_safe_load (fs inp)) as [config|e];
    [|now left].
  right.
  destruct (reaches_controls expanduser config inp) eqn:Hr.
  - right. now apply main_controls.
  - left. now apply main_polled.
Qed.

Lemma no_ignored_polled p : no_ignored p -> no_ignored (polled p).
Proof.
  unfold no_ignored. intros H.
  destruct (polled_events p) as [E | [E1 E2]].
  - rewrite E. apply Forall_app in H as [H1 H2]. apply Forall_app. now split.
  - now rewrite E1, E2.
Qed.

Lemma no_ignored_step l p : no_ignored p -> no_ignored (step yaml_safe_load expanduser l p).
Proof.
  intros H. destruct l as [h event t | inp]; cbn [step].
  - unfold deliver. destruct (threads p !! h) as [th|]; [|exact H].
    destruct (thread_alive th); [|exact H].
    unfold no_ignored in *. cbn [with_session session event_queue event_list].
    unfold on_any_event. destruct (accepts event) eqn:Ha; [|exact H].
    rewrite <- app_assoc. apply Forall_app in H as [H1 H2].
    apply Forall_app. split; [exact H1|]. constructor; [|exact H2].
    unfold accepts in Ha. apply andb_true_iff in Ha as [_ Ha].
    now apply negb_true_iff in Ha.
  - destruct (script_run_after inp p) as [E | [E | E]]; rewrite E.
    + exact H.
    + now apply no_ignored_polled.
    + apply no_ignored_polled in H. unfold no_ignored in *.
      destruct (controls_events (expanduser (folder_text inp)) inp (polled p)) as [E1 E2].
      now rewrite E1, E2.
Qed.

Lemma one_observer_polled p : one_observer p -> one_observer (polled p).
Proof.
  unfold one_observer.
  now rewrite polled_monitoring, polled_observer, polled_threads.
Qed.

Lemma one_observer_controls path inp p :
  one_observer p -> one_observer (fst (controls path inp p)).
Proof.
  unfold one_observer, controls. intros [Hs Hothers].
  destruct (monitoring (session p)) eqn:Hm; cbn [negb].
  - destruct (st_button StopMonitoring inp); cbn [fst]; [|now rewrite Hm].
    cbn [session threads monitoring observer]. split; [reflexivity|].
    destruct Hs as [h [th [Ho [Hth Hrun]]]]. rewrite Ho.
    intros i th' Hi _. destruct (decide (i = h)) as [->|Hne].
    + rewrite (stop_observer_lookup h _ th Hth) in Hi. now inversion Hi.
    + rewrite stop_observer_other in Hi by exact Hne.
      apply (Hothers i th' Hi). rewrite Ho. congruence.
  - destruct (st_button StartMonitoring inp); cbn [fst]; [|now rewrite Hm].
    cbn [start_observer fst session threads monitoring observer]. split.
    + exists (length (threads p)), {| watch_path := path; status := Running |}.
      split; [reflexivity|]. split; [|reflexivity].
      rewrite lookup_app_r by lia. now rewrite Nat.sub_diag.
    + intros i th Hi Hne. apply lookup_app_Some in Hi as [Hi | [Hge Hi]].
      * apply (Hothers i th Hi). rewrite Hs. discriminate.
      * destruct (i - length (threads p))%nat as [|k] eqn:Ek; [|discriminate].
        exfalso. apply Hne. f_equal. lia.
Qed.

Lemma one_observer_step l p :
  one_observer p -> one_observer (step yaml_safe_load expanduser l p).
Proof.
  intros H. destruct l as [h event t | inp]; cbn [step].
  - unfold deliver. destruct (threads p !! h) as [th|]; [|exact H].
    destruct (thread_alive th); exact H.
  - destruct (script_run_after inp p) as [E | [E | E]]; rewrite E.
    + exact H.
    + now apply one_observer_polled.
    + now apply one_observer_controls, one_observer_polled.
Qed.

Lemma run_labels_snoc ls l p :
  run_labels yaml_safe_load expanduser (ls ++ [l]) p
  = step yaml_safe_load expanduser l (run_labels yaml_safe_load expanduser ls p).
Proof. unfold run_labels. now rewrite fold_left_app. Qed.

(** Every reachable state keeps the ignored names out of the queue and the
    history, and has at most one live observer. *)
Lemma reachable_invariants p :
  reachable yaml_safe_load expanduser p -> no_ignored p /\ one_observer p.
Proof.
  intros [ls <-]. induction ls as [|l ls IH] using rev_ind.
  - split; [constructor|]. split; [reflexivity|]. intros i th Hi. discriminate.
  - rewrite run_labels_snoc. destruct IH as [H1 H2].
    split; [now apply no_ignored_step | now apply one_observer_step].
Qed.

(** X12: Whatever the clock, the display of a reachable state lists no event
    whose path contains [".DS_Store"] or [".localized"]. *)
Lemma recent_events_never_ignored p t w :
  reachable yaml_safe_load expanduser p ->
  In w (recent_wrappers t (event_list (session p))) ->
  Str.contains ".DS_Store" (w_src_path w) = false /\
  Str.contains ".localized" (w_src_path w) = false.
Proof.
  intros Hreach Hin. apply reachable_invariants in Hreach as [Hno _].
  unfold recent_wrappers in Hin. apply List.filter_In in Hin as [Hin _].
  unfold no_ignored in Hno. apply Forall_app in Hno as [_ Hl].
  rewrite Forall_forall in Hl. specialize (Hl w).
  assert (any_ignored (w_src_path w) = false) as Hw.
  { apply Hl. now apply list_elem_of_In. }
  destruct (Str.contains ".DS_Store" (w_src_path w)) eqn:E1,
           (Str.contains ".localized" (w_src_path w)) eqn:E2; try (now split);
    exfalso; assert (any_ignored (w_src_path w) = true) as Habs
      by (apply any_ignored_iff; auto); congruence.
Qed.

End Reachable.

(** * Further properties of the code *)

(** ** Wrappers and their dictionaries *)

Lemma to_dict_lookup (w : FileEventWrapper) (k : string) :
  to_dict w !! k =
  if String.eqb k "event_type" then Some (VStr (w_event_type w))
  else if String.eqb k "src_path" then Some (VStr (w_src_path w))
  else if String.eqb k "timestamp" then Some (VTime (w_timestamp w))
  else None.
Proof.
  unfold to_dict.
  destruct (String.eqb_spec k "event_type") as [->|H1];
    [now rewrite lookup_insert_eq|].
  rewrite lookup_insert_ne by congruence.
  destruct (String.eqb_spec k "src_path") as [->|H2];
    [now rewrite lookup_insert_eq|].
  rewrite lookup_insert_ne by congruence.
  destruct (String.eqb_spec k "timestamp") as [->|H3];
    [now rewrite lookup_insert_eq|].
  rewrite lookup_insert_ne by congruence. apply lookup_empty.
Qed.

(** X1: [to_dict] loses nothing: the three fields are read back under their
    keys, and two wrappers with the same dictionary are the same wrapper. *)
Theorem to_dict_faithful (w1 w2 : FileEventWrapper) :
  to_dict w1 !! "event_type" = Some (VStr (w_event_type w1)) /\
  to_dict w1 !! "src_path" = Some (VStr (w_src_path w1)) /\
  to_dict w1 !! "timestamp" = Some (VTime (w_timestamp w1)) /\
  (to_dict w1 = to_dict w2 <-> w1 = w2).
Proof.
  rewrite !to_dict_lookup. cbn.
  split; [reflexivity|]. split; [reflexivity|]. split; [reflexivity|].
  split; [|now intros ->].
  intros H.
  pose proof (f_equal (fun d => d !! "event_type") H) as H1.
  pose proof (f_equal (fun d => d !! "src_path") H) as H2.
  pose proof (f_equal (fun d => d !! "timestamp") H) as H3.
  cbn beta in H1, H2, H3. rewrite !to_dict_lookup in H1, H2, H3. cbn in H1, H2, H3.
  destruct w1, w2. cbn in *. congruence.
Qed.

(** ** Timestamps and the window *)

Lemma strftime_S_bounds (t : datetime) :
  strptime_S (strftime_S t) <= t < strptime_S (strftime_S t) + 1000000.
Proof.
  unfold strptime_S, strftime_S.
  pose proof (Z.mul_div_le t 1000000 ltac:(lia)).
  pose proof (Z.mul_succ_div_gt t 1000000 ltac:(lia)). lia.
Qed.

(** X2: The timestamp of a wrapper is the clock cut to the whole second, so the
    event made at [t0] is shown at every clock time up to 299 seconds
    later, is not shown once more than 300 seconds have passed, and in
    between it is shown exactly while the start of its second is inside the
    window. *)
Theorem wrapped_event_display_lifetime (event : FileSystemEvent) (t0 t : datetime) :
  (is_recent (t - timedelta_minutes 5) (FileEventWrapper_init event t0) = true <->
   t - 300000000 <= strptime_S (strftime_S t0)) /\
  (t - t0 <= 299000000 ->
   is_recent (t - timedelta_minutes 5) (FileEventWrapper_init event t0) = true) /\
  (300000000 < t - t0 ->
   is_recent (t - timedelta_minutes 5) (FileEventWrapper_init event t0) = false).
Proof.
  pose proof (strftime_S_bounds t0) as Hb.
  assert (is_recent (t - timedelta_minutes 5) (FileEventWrapper_init event t0) = true <->
          t - 300000000 <= strptime_S (strftime_S t0)) as Hiff.
  { rewrite is_recent_iff. cbn [FileEventWrapper_init w_timestamp].
    unfold timedelta_minutes, strptime_S. lia. }
  split; [exact Hiff|]. split.
  - intros H. apply Hiff. lia.
  - intros H. apply not_true_is_false. rewrite Hiff. lia.
Qed.

(** Cutting to the second can hide an event before its five minutes are
    over: made at 0.999999 s, it is gone at 300.5 s. *)
Lemma wrapped_event_hidden_early :
  is_recent (300500000 - timedelta_minutes 5)
            (FileEventWrapper_init report_event 999999) = false /\
  300500000 - 999999 < 300000000.
Proof. split; [reflexivity | lia]. Qed.

Lemma filter_weaker_sublist {A} (f g : A -> bool) (l : list A) :
  (forall x, f x = true -> g x = true) ->
  sublist (List.filter f l) (List.filter g l).
Proof.
  intros H. induction l as [|x l IH]; simpl; [constructor|].
  destruct (f x) eqn:Ef.
  - rewrite (H x Ef). now constructor.
  - destruct (g x); [now constructor | exact IH].
Qed.

(** X3: As the clock advances the display only loses events: what is shown at
    a later time is, in the same order, part of what was shown before. *)
Theorem recent_wrappers_shrinks (t t' : datetime) (lst : list FileEventWrapper) :
  t <= t' ->
  sublist (recent_wrappers t' lst) (recent_wrappers t lst).
Proof.
  intros Ht. unfold recent_wrappers. apply filter_weaker_sublist.
  intros w. rewrite !is_recent_iff. lia.
Qed.

(** Between the seconds 1000 and 2000 the event of second 990 is lost. *)
Lemma recent_wrappers_shrinks_witness :
  sublist (recent_wrappers (strptime_S 2000) [event_at 990])
          (recent_wrappers (strptime_S 1000) [event_at 990]).
Proof.
  apply (recent_wrappers_shrinks (strptime_S 1000) (strptime_S 2000) [event_at 990]).
  vm_compute. discriminate.
Defined.

(** X4: What [display_recent_events] puts under its heading: nothing at all for
    an empty history; the message "No events in the last 5 minutes." when
    the history is not empty and no event is recent; otherwise one table
    with the dictionaries of the recent events. *)
Theorem display_recent_events_cases (t : datetime) (lst : list FileEventWrapper) :
  (lst = [] -> display_recent_events t lst = [Subheader "New Events"]) /\
  (lst <> [] -> recent_wrappers t lst = [] ->
   display_recent_events t lst =
     [Subheader "New Events"; Info "No events in the last 5 minutes."]) /\
  (recent_wrappers t lst <> [] ->
   display_recent_events t lst =
     [Subheader "New Events"; Dataframe (map to_dict (recent_wrappers t lst))]) /\
  (In (Info "No events in the last 5 minutes.") (display_recent_events t lst) <->
   lst <> [] /\ recent_wrappers t lst = []).
Proof.
  unfold display_recent_events, recent_events.
  destruct lst as [|w lst].
  - split; [reflexivity|]. split; [congruence|]. split; [intros H; now elim H|].
    split; [intros [H|[]]; discriminate | intros [H _]; congruence].
  - destruct (recent_wrappers t (w :: lst)) as [|r rs] eqn:E; cbn [map].
    + split; [discriminate|]. split; [reflexivity|]. split; [congruence|].
      split; [intros _; split; [discriminate | reflexivity]|].
      intros _. right. now left.
    + split; [discriminate|]. split; [discriminate|]. split; [reflexivity|].
      split; [|intros [_ H]; discriminate].
      intros [H|[H|[]]]; discriminate.
Qed.

(** ** Runs of the script: polling, configuration, folder path *)

Lemma polled_session (p : Process) :
  event_queue (session (polled p))
    = (if monitoring (session p) then [] else event_queue (session p)) /\
  event_list (session (polled p))
    = (if monitoring (session p)
       then event_list (session p) ++ event_queue (session p)
       else event_list (session p)).
Proof.
  unfold polled. destruct (monitoring (session p)); [|now split].
  simpl. now rewrite check_events_and_update_eq.
Qed.

(** X5: A run whose configuration loads polls exactly when the session was
    monitoring at its start: then the queue is empty afterwards and its
    events are at the end of the history; otherwise both are untouched,
    whatever button was clicked. So the run of a start click does not poll,
    and the run of a stop click polls before it stops. *)
Theorem script_run_polls_when_monitoring (yaml_safe_load : string -> result PyObj)
    (expanduser : string -> string) (inp : RunInput) (p : Process) (config : PyObj) :
  load_config yaml_safe_load (fs inp) = Ok config ->
  event_queue (session (after (script_run yaml_safe_load expanduser inp p)))
    = (if monitoring (session p) then [] else event_queue (session p)) /\
  event_list (session (after (script_run yaml_safe_load expanduser inp p)))
    = (if monitoring (session p)
       then event_list (session p) ++ event_queue (session p)
       else event_list (session p)).
Proof.
  intros Hc. unfold script_run. rewrite Hc.
  destruct (reaches_controls expanduser config inp) eqn:Hr.
  - rewrite (main_controls expanduser config inp p Hr).
    destruct (controls_events (expanduser (folder_text inp)) inp (polled p)) as [E1 E2].
    rewrite E1, E2. apply polled_session.
  - rewrite (main_polled expanduser config inp p Hr). apply polled_session.
Qed.

(** A monitoring session with one event queued is polled by a plain run. *)
Lemma script_run_polls_when_monitoring_witness :
  event_queue (session (after (script_run yaml_none expanduser_id
     (click None "/a" (strptime_S 1015))
     (run_labels yaml_none expanduser_id
        [Rerun (click (Some StartMonitoring) "/a" (strptime_S 1000));
         Deliver 0 report_event (strptime_S 1010)] initial_process)))) = [].
Proof.
  apply (script_run_polls_when_monitoring yaml_none expanduser_id
           (click None "/a" (strptime_S 1015))
           (run_labels yaml_none expanduser_id
              [Rerun (click (Some StartMonitoring) "/a" (strptime_S 1000));
               Deliver 0 report_event (strptime_S 1010)] initial_process)
           (PDict default_config)).
  reflexivity.
Defined.

(** X6: With a configuration that has no [starting_directory] (a mapping
    without the key, or YAML that is no mapping), [main] raises at the
    folder field in every run: the queue is still polled, but no click is
    ever acted on and nothing is shown after the title. *)
Theorem main_without_starting_directory (expanduser : string -> string)
    (config : PyObj) (inp : RunInput) (p : Process) :
  has_key config "starting_directory" = false ->
  after (main expanduser config inp p) = polled p /\
  monitoring (session (after (main expanduser config inp p))) = monitoring (session p) /\
  observer (session (after (main expanduser config inp p))) = observer (session p) /\
  threads (after (main expanduser config inp p)) = threads p /\
  out (main expanduser config inp p) = [Title "Enhanced Real-Time File Viewer"] /\
  ending (main expanduser config inp p)
    = Raised (match config with PDict _ => "KeyError" | POther => "TypeError" end).
Proof.
  intros Hk.
  assert (after (main expanduser config inp p) = polled p) as Hafter.
  { apply main_polled. unfold reaches_controls. unfold has_key in Hk.
    now destruct (subscript config "starting_directory"). }
  rewrite Hafter, polled_monitoring, polled_observer, polled_threads.
  repeat split; unfold has_key in Hk; unfold main;
    destruct config as [d|]; cbn [subscript] in *;
    try reflexivity; destruct (d !! "starting_directory"); try discriminate; reflexivity.
Qed.

(** An empty mapping as configuration: the start click is not acted on. *)
Lemma main_without_starting_directory_witness :
  monitoring (session (after (main expanduser_id (PDict ∅)
     (click (Some StartMonitoring) "/a" (strptime_S 1000)) initial_process)))
  = monitoring (session initial_process).
Proof.
  apply (main_without_starting_directory expanduser_id (PDict ∅)
           (click (Some StartMonitoring) "/a" (strptime_S 1000)) initial_process).
  reflexivity.
Defined.

(** X7: With a configuration that has a [starting_directory] but no
    [refresh_rate], a run whose folder path is valid acts on the click and
    then raises at the slider: monitoring starts or stops as asked, but the
    recent events are never shown. *)
Theorem main_without_refresh_rate (expanduser : string -> string)
    (config : PyObj) (inp : RunInput) (p : Process) :
  reaches_controls expanduser config inp = true ->
  has_key config "refresh_rate" = false ->
  after (main expanduser config inp p)
    = fst (controls (expanduser (folder_text inp)) inp (polled p)) /\
  out (main expanduser config inp p)
    = Title "Enhanced Real-Time File Viewer"
      :: snd (controls (expanduser (folder_text inp)) inp (polled p)) /\
  ending (main expanduser config inp p) = Raised "KeyError".
Proof.
  intros Hr Hk. split; [now apply main_controls|].
  unfold reaches_controls, has_key in *. unfold main. fold (polled p).
  destruct config as [d|]; cbn [subscript] in *; [|discriminate].
  destruct (d !! "starting_directory"); [|discriminate].
  destruct (_ || _); [discriminate|].
  destruct (controls _ inp (polled p)) as [p2 out2].
  destruct (d !! "refresh_rate"); [discriminate|]. split; reflexivity.
Qed.

(** A configuration with the starting directory only: the start is made,
    and the run ends in [KeyError]. *)
Lemma main_without_refresh_rate_witness :
  ending (main expanduser_id (PDict {[ "starting_directory" := VStr "/a" ]})
            (click (Some StartMonitoring) "/a" (strptime_S 1000)) initial_process)
  = Raised "KeyError".
Proof.
  apply (main_without_refresh_rate expanduser_id
           (PDict {[ "starting_directory" := VStr "/a" ]})
           (click (Some StartMonitoring) "/a" (strptime_S 1000)) initial_process);
    vm_compute; reflexivity.
Defined.

(** X8: While the folder field is empty or names a path that does not exist,
    [main] stops at the error message: the queue is still polled when
    monitoring is on, but a click on "Stop Monitoring" (or on "Start
    Monitoring") changes nothing, so a session cannot be stopped until the
    field holds a valid path again. *)
Theorem main_invalid_folder_blocks_controls (expanduser : string -> string)
    (config : PyObj) (inp : RunInput) (p : Process) :
  has_key config "starting_directory" = true ->
  expanduser (folder_text inp) = "" \/
    fs_exists (fs inp) (expanduser (folder_text inp)) = false ->
  after (main expanduser config inp p) = polled p /\
  monitoring (session (after (main expanduser config inp p))) = monitoring (session p) /\
  observer (session (after (main expanduser config inp p))) = observer (session p) /\
  threads (after (main expanduser config inp p)) = threads p /\
  out (main expanduser config inp p)
    = [Title "Enhanced Real-Time File Viewer";
       Error "Please enter a valid folder path."] /\
  ending (main expanduser config inp p) = Stopped.
Proof.
  intros Hk Hbad.
  assert (String.eqb (expanduser (folder_text inp)) ""
          || negb (fs_exists (fs inp) (expanduser (folder_text inp))) = true) as Hcond.
  { destruct Hbad as [-> | ->]; [reflexivity | apply orb_true_r]. }
  assert (after (main expanduser config inp p) = polled p) as Hafter.
  { apply main_polled. unfold reaches_controls.
    destruct (subscript config "starting_directory"); [|reflexivity].
    now rewrite Hcond. }
  rewrite Hafter, polled_monitoring, polled_observer, polled_threads.
  unfold has_key in Hk. unfold main.
  destruct (subscript config "starting_directory"); [|discriminate].
  rewrite Hcond. repeat split.
Qed.

(** The folder was removed while /a was watched: the stop click is lost. *)
Lemma main_invalid_folder_blocks_controls_witness :
  monitoring (session (after (main expanduser_id (PDict default_config)
     (click (Some StopMonitoring) "/gone" (strptime_S 1020)) watching_a)))
  = monitoring (session watching_a).
Proof.
  apply (main_invalid_folder_blocks_controls expanduser_id (PDict default_config)
           (click (Some StopMonitoring) "/gone" (strptime_S 1020)) watching_a).
  - reflexivity.
  - right. reflexivity.
Defined.

(** ** The process over time *)

Section ProcessFacts.

Variable yaml_safe_load : string -> result PyObj.
Variable expanduser : string -> string.

Lemma step_events (l : label) (p : Process) :
  event_list (session (step yaml_safe_load expanduser l p))
    ++ event_queue (session (step yaml_safe_load expanduser l p))
  = event_list (session p) ++ event_queue (session p) ++ delivery l p.
Proof.
  destruct l as [h event t | inp]; cbn [step delivery].
  - unfold deliver. destruct (threads p !! h) as [th|]; [|now rewrite app_nil_r].
    destruct (thread_alive th); [|now rewrite app_nil_r].
    cbn [with_session session event_queue event_list].
    now rewrite (on_any_event_app event t).
  - rewrite app_nil_r.
    assert (event_list (session (polled p)) ++ event_queue (session (polled p))
            = event_list (session p) ++ event_queue (session p)) as Hp.
    { destruct (polled_session p) as [E1 E2]. rewrite E1, E2.
      destruct (monitoring (session p)); [now rewrite app_nil_r | reflexivity]. }
    destruct (script_run_after yaml_safe_load expanduser inp p) as [E | [E | E]];
      rewrite E.
    + reflexivity.
    + exact Hp.
    + destruct (controls_events (expanduser (folder_text inp)) inp (polled p)) as [E1 E2].
      now rewrite E1, E2.
Qed.

Lemma run_labels_cons l ls p :
  run_labels yaml_safe_load expanduser (l :: ls) p
  = run_labels yaml_safe_load expanduser ls (step yaml_safe_load expanduser l p).
Proof. reflexivity. Qed.

(** X9: Over any sequence of deliveries and runs, from any state, the history
    followed by the queue is what it was followed by the wrappers the
    observers have put since, in the order of the puts: no run of the
    script, start or stop drops, doubles or reorders an event. *)
Theorem history_and_queue_hold_deliveries (ls : list label) (p : Process) :
  event_list (session (run_labels yaml_safe_load expanduser ls p))
    ++ event_queue (session (run_labels yaml_safe_load expanduser ls p))
  = event_list (session p) ++ event_queue (session p)
    ++ deliveries yaml_safe_load expanduser ls p.
Proof.
  revert p. induction ls as [|l ls IH]; intros p.
  - cbn. now rewrite !app_nil_r.
  - rewrite run_labels_cons, IH, (app_assoc (event_list _)), step_events.
    cbn [deliveries]. now rewrite <- !app_assoc.
Qed.

(** X10: In a reachable state an observer thread that is alive is the one the
    session holds, it is running, and the session is monitoring; so two
    observers are never alive together. *)
Theorem reachable_one_live_observer (p : Process) (i : nat) (th : ObserverThread) :
  reachable yaml_safe_load expanduser p ->
  threads p !! i = Some th ->
  thread_alive th = true ->
  monitoring (session p) = true /\
  observer (session p) = Some i /\
  status th = Running.
Proof.
  intros Hreach Hi Halive.
  apply reachable_invariants in Hreach as [_ [Hs Hothers]].
  destruct (decide (observer (session p) = Some i)) as [Ho | Hne].
  - destruct (monitoring (session p)); [|congruence].
    destruct Hs as [h [th' [Hh [Hth Hrun]]]].
    assert (h = i) as -> by congruence. split; [reflexivity|].
    split; [exact Ho | congruence].
  - specialize (Hothers i th Hi Hne). unfold thread_alive in Halive.
    rewrite Hothers in Halive. discriminate.
Qed.

(** X11: In a reachable state that is not monitoring no observer can put an
    event: a delivery from any handle leaves the process as it is. *)
Theorem idle_session_receives_nothing (p : Process) (h : nat)
    (event : FileSystemEvent) (t : datetime) :
  reachable yaml_safe_load expanduser p ->
  monitoring (session p) = false ->
  deliver h event t p = p.
Proof.
  intros Hreach Hm. unfold deliver.
  destruct (threads p !! h) as [th|] eqn:Hth; [|reflexivity].
  destruct (thread_alive th) eqn:Ha; [|reflexivity].
  apply reachable_invariants in Hreach as [_ [Hs Hothers]].
  rewrite Hm in Hs. assert (status th = Terminated) as Hterm.
  { apply (Hothers h th Hth). rewrite Hs. discriminate. }
  unfold thread_alive in Ha. rewrite Hterm in Ha. discriminate.
Qed.

End ProcessFacts.

Lemma watching_a_reachable : reachable yaml_none expanduser_id watching_a.
Proof.
  exists [Rerun (click (Some StartMonitoring) "/a" (strptime_S 1000))]. reflexivity.
Defined.

Lemma after_first_session_reachable : reachable yaml_none expanduser_id after_first_session.
Proof. exists first_session. reflexivity. Defined.

(** The observer of the session that watches /a is the live one. *)
Lemma reachable_one_live_observer_witness :
  observer (session watching_a) = Some 0%nat.
Proof.
  apply (reachable_one_live_observer yaml_none expanduser_id watching_a 0
           {| watch_path := "/a"; status := Running |});
    [exact watching_a_reachable | reflexivity | reflexivity].
Defined.

(** After the first session was stopped, its observer delivers nothing. *)
Lemma idle_session_receives_nothing_witness :
  deliver 0 report_event (strptime_S 1025) after_first_session = after_first_session.
Proof.
  apply (idle_session_receives_nothing yaml_none expanduser_id after_first_session 0
           report_event (strptime_S 1025));
    [exact after_first_session_reachable | reflexivity].
Defined.

(** The event shown after the first session has no ignored name in its path. *)
Lemma recent_events_never_ignored_witness :
  Str.contains ".DS_Store" "/tmp/watch/report.txt" = false /\
  Str.contains ".localized" "/tmp/watch/report.txt" = false.
Proof.
  apply (recent_events_never_ignored yaml_none expanduser_id after_first_session
           (strptime_S 1030) (FileEventWrapper_init report_event (strptime_S 1010)));
    [exact after_first_session_reachable | vm_compute; left; reflexivity].
Defined.

Lemma stop_observer_last (ths : list ObserverThread) (x : ObserverThread) :
  stop_observer (length ths) (ths ++ [x])
  = ths ++ [{| watch_path := watch_path x; status := Terminated |}].
Proof.
  apply list_eq. intros i. destruct (decide (i = length ths)) as [->|Hne].
  - rewrite (stop_observer_lookup _ _ x).
    + rewrite lookup_app_r by lia. now rewrite Nat.sub_diag.
    + rewrite lookup_app_r by lia. now rewrite Nat.sub_diag.
  - rewrite stop_observer_other by exact Hne.
    destruct (decide (i < length ths)%nat) as [Hlt|Hge].
    + now rewrite !lookup_app_l by exact Hlt.
    + rewrite !lookup_app_r by lia.
      destruct (i - length ths)%nat as [|k] eqn:E; [lia | reflexivity].
Qed.

(** X13: A start followed by a stop, each in a run that reaches the controls:
    the session is idle again, the events that were queued before the start
    have been polled into the history by the run of the stop, and the
    observer made by the start stays among the threads, terminated; each
    start makes a new observer. *)
Theorem start_then_stop (expanduser : string -> string) (config : PyObj)
    (inp1 inp2 : RunInput) (p : Process) :
  monitoring (session p) = false ->
  clicked inp1 = Some StartMonitoring ->
  clicked inp2 = Some StopMonitoring ->
  reaches_controls expanduser config inp1 = true ->
  reaches_controls expanduser config inp2 = true ->
  after (main expanduser config inp2 (after (main expanduser config inp1 p)))
  = {| session := {| event_queue := []; observer := None;
                     event_list := event_list (session p) ++ event_queue (session p);
                     monitoring := false |};
       threads := threads p ++ [{| watch_path := expanduser (folder_text inp1);
                                   status := Terminated |}] |}.
Proof.
  intros Hm Hc1 Hc2 Hr1 Hr2.
  rewrite (main_controls expanduser config inp2 _ Hr2).
  rewrite (main_controls expanduser config inp1 p Hr1).
  rewrite (polled_idle p Hm).
  assert (controls (expanduser (folder_text inp1)) inp1 p
          = ({| session := {| event_queue := event_queue (session p);
                              observer := Some (length (threads p));
                              event_list := event_list (session p);
                              monitoring := true |};
                threads := threads p ++ [{| watch_path := expanduser (folder_text inp1);
                                            status := Running |}] |},
             [Success ("Started monitoring " +:+ expanduser (folder_text inp1))])) as E1.
  { unfold controls, st_button. now rewrite Hm, Hc1. }
  rewrite E1. cbn [fst].
  rewrite controls_stop; [| now rewrite polled_monitoring | exact Hc2].
  cbn [fst]. destruct (polled_session
    {| session := {| event_queue := event_queue (session p);
                     observer := Some (length (threads p));
                     event_list := event_list (session p);
                     monitoring := true |};
       threads := threads p ++ [{| watch_path := expanduser (folder_text inp1);
                                   status := Running |}] |}) as [Eq El].
  rewrite Eq, El, polled_observer, polled_threads.
  cbn [session threads observer monitoring event_queue event_list].
  now rewrite stop_observer_last.
Qed.

(** A start and a stop on /a from the first state of the process. *)
Lemma start_then_stop_witness :
  after (main expanduser_id (PDict default_config)
           (click (Some StopMonitoring) "/a" (strptime_S 1020))
           (after (main expanduser_id (PDict default_config)
                     (click (Some StartMonitoring) "/a" (strptime_S 1000))
                     initial_process)))
  = {| session := initial_session;
       threads := [{| watch_path := "/a"; status := Terminated |}] |}.
Proof.
  apply (start_then_stop expanduser_id (PDict default_config)
           (click (Some StartMonitoring) "/a" (strptime_S 1000))
           (click (Some StopMonitoring) "/a" (strptime_S 1020)) initial_process);
    vm_compute; reflexivity.
Defined.

(** ** The directory views *)

Lemma contains_in_path (ignored name dir : string) :
  Str.contains ignored name = true ->
  Str.contains ignored (dir +:+ "/" +:+ name) = true.
Proof.
  rewrite !contains_iff. intros [pre [post H]].
  exists (dir +:+ "/" +:+ pre), post. rewrite H. now rewrite !append_assoc.
Qed.

(** X14: The listing and the handler disagree on names that only contain an
    ignored name: such an entry has its row in the listing, while every
    event of a file of that name, in whatever folder, is dropped by the
    handler of file_viewer.py. *)
Theorem listing_shows_what_handler_drops (entries : list DirEntry) (e : DirEntry)
    (event : FileSystemEvent) (ignored dir : string) :
  In e entries ->
  name_listed e = true ->
  In ignored ignore_list ->
  Str.contains ignored (f_name e) = true ->
  src_path event = dir +:+ "/" +:+ f_name e ->
  In (file_row e) (files_data entries) /\
  accepts event = false /\
  (forall t q, on_any_event event t q = q).
Proof.
  intros Hin Hl Hign Hc Hp.
  assert (accepts event = false) as Ha.
  { unfold accepts. rewrite Hp.
    assert (any_ignored (dir +:+ "/" +:+ f_name e) = true) as ->.
    { unfold any_ignored. apply existsb_exists. exists ignored.
      split; [exact Hign | now apply contains_in_path]. }
    apply andb_false_r. }
  split.
  - unfold files_data. apply in_map. apply List.filter_In. now split.
  - split; [exact Ha|]. intros t q. now apply on_any_event_suppressed.
Qed.

(** The file notes.localized.txt of /tmp/watch is listed. *)
Lemma listing_shows_what_handler_drops_witness :
  In (file_row (entry "notes.localized.txt" ".txt" RegularFile 5))
     (files_data [entry "notes.localized.txt" ".txt" RegularFile 5]) /\
  accepts localized_notes = false.
Proof.
  destruct (listing_shows_what_handler_drops
              [entry "notes.localized.txt" ".txt" RegularFile 5]
              (entry "notes.localized.txt" ".txt" RegularFile 5)
              localized_notes ".localized" "/tmp/watch") as [H1 [H2 _]].
  - left. reflexivity.
  - reflexivity.
  - right. left. reflexivity.
  - reflexivity.
  - reflexivity.
  - split; [exact H1 | exact H2].
Defined.

Lemma max_mtime_from_spec (l : list DirEntry) (best : DirEntry) :
  (forall x, In x (best :: l) -> f_mtime x <= f_mtime (max_mtime_from best l)) /\
  exists pre post,
    best :: l = pre ++ max_mtime_from best l :: post /\
    forall x, In x pre -> f_mtime x < f_mtime (max_mtime_from best l).
Proof.
  revert best. induction l as [|y l IH]; intros best.
  - cbn. split.
    + intros x [<- | []]. lia.
    + exists [], []. split; [reflexivity | intros x []].
  - cbn [max_mtime_from]. destruct (Z.ltb_spec (f_mtime best) (f_mtime y)) as [Hlt | Hge].
    + destruct (IH y) as [Hmax [pre [post [Hsplit Hpre]]]]. split.
      * intros x [<- | Hx]; [|now apply Hmax].
        specialize (Hmax y (or_introl eq_refl)). lia.
      * exists (best :: pre), post. split; [cbn; now rewrite Hsplit|].
        intros x [<- | Hx]; [|now apply Hpre].
        specialize (Hmax y (or_introl eq_refl)). lia.
    + destruct (IH best) as [Hmax [pre [post [Hsplit Hpre]]]]. split.
      * intros x [<- | [<- | Hx]].
        -- apply Hmax. now left.
        -- specialize (Hmax best (or_introl eq_refl)). lia.
        -- apply Hmax. now right.
      * destruct pre as [|b pre].
        -- cbn in Hsplit. injection Hsplit as Hb Hl.
           exists [], (y :: l). rewrite <- Hb. split; [reflexivity | intros x []].
        -- cbn in Hsplit. injection Hsplit as Hb Hl. subst b.
           exists (best :: y :: pre), post.
           split; [cbn [app]; do 2 f_equal; exact Hl|].
           intros x [<- | [<- | Hx]].
           ++ apply Hpre. now left.
           ++ specialize (Hpre best (or_introl eq_refl)). lia.
           ++ apply Hpre. now right.
Qed.

(** X15: The file that [display_latest_file] previews is an entry with a listed
    name that is at least as new as every other such entry, and among the
    entries of that same time it is the first that the folder yields. When
    no entry has a listed name, and only then, there is none, and the view
    shows the warning "No valid files found in the directory.". *)
Theorem latest_file_is_first_newest (entries : list DirEntry) :
  match latest_file entries with
  | Some latest =>
      In latest entries /\ name_listed latest = true /\
      (forall x, In x entries -> name_listed x = true ->
                 f_mtime x <= f_mtime latest) /\
      (exists pre post, valid_files entries = pre ++ latest :: post /\
                        forall x, In x pre -> f_mtime x < f_mtime latest)
  | None =>
      (forall x, In x entries -> name_listed x = false) /\
      display_latest_file (Folder entries) =
        Ok [VSubheader "Latest File";
            VWarning "No valid files found in the directory."]
  end.
Proof.
  unfold display_latest_file, latest_file.
  destruct (valid_files entries) as [|best l] eqn:E.
  - split; [|reflexivity]. intros x Hx.
    destruct (name_listed x) eqn:Hn; [|reflexivity].
    assert (In x (valid_files entries)) as Habs
      by (unfold valid_files; apply List.filter_In; now split).
    rewrite E in Habs. destruct Habs.
  - destruct (max_mtime_from_spec l best) as [Hmax [pre [post [Hsplit Hpre]]]].
    assert (In (max_mtime_from best l) (valid_files entries)) as Hin.
    { rewrite E, Hsplit. apply in_or_app. right. now left. }
    unfold valid_files in Hin. apply List.filter_In in Hin as [Hin Hn].
    split; [exact Hin|]. split; [exact Hn|]. split.
    + intros x Hx Hnx. apply Hmax. rewrite <- E. unfold valid_files.
      apply List.filter_In. now split.
    + exists pre, post. now split.
Qed.





(** ** file_viewer_0.py *)

Lemma insert_newest_first_Permutation (x : DirEntry) (l : list DirEntry) :
  Permutation (Viewer0.insert_newest_first x l) (x :: l).
Proof.
  induction l as [|y l IH]; cbn; [reflexivity|].
  destruct (f_mtime x <? f_mtime y); [|reflexivity].
  rewrite IH. apply perm_swap.
Qed.

Lemma insert_newest_first_In (x y : DirEntry) (l : list DirEntry) :
  In y (Viewer0.insert_newest_first x l) <-> y = x \/ In y l.
Proof.
  split; intros H.
  - apply (Permutation_in _ (insert_newest_first_Permutation x l)) in H.
    destruct H as [<- | H]; [now left | now right].
  - apply (Permutation_in _ (Permutation_sym (insert_newest_first_Permutation x l))).
    destruct H as [-> | H]; [now left | now right].
Qed.

Lemma insert_newest_first_sorted (x : DirEntry) (l : list DirEntry) :
  StronglySorted (fun a b => f_mtime b <= f_mtime a) l ->
  StronglySorted (fun a b => f_mtime b <= f_mtime a) (Viewer0.insert_newest_first x l).
Proof.
  induction 1 as [|y l Hs IH Hy]; cbn.
  - constructor; constructor.
  - destruct (Z.ltb_spec (f_mtime x) (f_mtime y)) as [Hlt | Hge].
    + constructor; [exact IH|].
      apply List.Forall_forall. intros z Hz. apply insert_newest_first_In in Hz.
      destruct Hz as [-> | Hz]; [lia|].
      rewrite List.Forall_forall in Hy. now apply Hy.
    + constructor; [now constructor|].
      constructor; [exact Hge|].
      rewrite List.Forall_forall in Hy. apply List.Forall_forall.
      intros z Hz. specialize (Hy z Hz). lia.
Qed.

Lemma insert_newest_first_same_time (x : DirEntry) (l : list DirEntry) (m : Z) :
  List.filter (fun e => f_mtime e =? m) (Viewer0.insert_newest_first x l)
  = List.filter (fun e => f_mtime e =? m) (x :: l).
Proof.
  induction l as [|y l IH]; [reflexivity|].
  cbn [Viewer0.insert_newest_first].
  destruct (Z.ltb_spec (f_mtime x) (f_mtime y)) as [Hlt | Hge]; [|reflexivity].
  cbn [List.filter] in *. rewrite IH.
  destruct (Z.eqb_spec (f_mtime x) m) as [Hx|Hx];
    destruct (Z.eqb_spec (f_mtime y) m) as [Hy|Hy]; try reflexivity. lia.
Qed.

(** X17: The listing of file_viewer_0.py orders the entries of the folder newest
    first and keeps the order of entries of equal time; it then shows the
    names of the regular files among them, and of no other entry. *)
Theorem file_listing_newest_first (entries : list DirEntry) :
  Permutation (Viewer0.sorted_newest_first entries) entries /\
  StronglySorted (fun a b => f_mtime b <= f_mtime a)
                 (Viewer0.sorted_newest_first entries) /\
  (forall m, List.filter (fun e => f_mtime e =? m) (Viewer0.sorted_newest_first entries)
             = List.filter (fun e => f_mtime e =? m) entries) /\
  (forall n, In (VText n) (Viewer0.file_lines entries) <->
             exists e, In e entries /\ is_file e = true /\ f_name e = n).
Proof.
  assert (Permutation (Viewer0.sorted_newest_first entries) entries) as Hperm.
  { induction entries as [|x l IH]; cbn; [reflexivity|].
    rewrite insert_newest_first_Permutation. now constructor. }
  split; [exact Hperm|]. split; [|split].
  - induction entries as [|x l IH]; cbn; [constructor|].
    apply insert_newest_first_sorted, IH.
    clear -l. induction l as [|y l IH]; cbn; [reflexivity|].
    rewrite insert_newest_first_Permutation. now constructor.
  - intros m. clear Hperm. induction entries as [|x l IH]; [reflexivity|].
    cbn [Viewer0.sorted_newest_first]. rewrite insert_newest_first_same_time.
    cbn [List.filter]. now rewrite IH.
  - intros n. unfold Viewer0.file_lines. rewrite in_map_iff. split.
    + intros [e [He Hin]]. apply List.filter_In in Hin as [Hin Hf].
      exists e. split; [|split; [exact Hf | congruence]].
      now apply (Permutation_in _ Hperm).
    + intros [e [Hin [Hf Hn]]]. exists e. split; [now rewrite Hn|].
      apply List.filter_In. split; [|exact Hf].
      now apply (Permutation_in _ (Permutation_sym Hperm)).
Qed.

Lemma viewer0_drain_loop_spec (q l : list FileSystemEvent) :
  Viewer0.drain_loop q l = ([], l ++ q).
Proof.
  revert l. induction q as [|e q IH]; intros l; cbn.
  - now rewrite app_nil_r.
  - rewrite IH. now rewrite <- app_assoc.
Qed.

(** X18: In file_viewer_0.py the poll comes after the controls. A run whose
    folder path exists and that starts monitoring polls at once: the queue
    is empty afterwards and its events are in the history. A run that stops
    monitoring does not poll: the events still queued stay in the queue and
    are not shown. *)
Theorem viewer0_polls_after_controls (inp : RunInput) (p : Viewer0.Process) :
  fs_exists (fs inp) (viewer0_folder inp) = true ->
  (Viewer0.is_monitoring (Viewer0.session p) = false ->
   clicked inp = Some StartMonitoring ->
   Viewer0.monitoring (Viewer0.session (Viewer0.after (Viewer0.main inp p))) = Some true /\
   Viewer0.event_queue (Viewer0.session (Viewer0.after (Viewer0.main inp p))) = [] /\
   Viewer0.event_list (Viewer0.session (Viewer0.after (Viewer0.main inp p)))
     = Viewer0.event_list (Viewer0.session p) ++ Viewer0.event_queue (Viewer0.session p)) /\
  (Viewer0.is_monitoring (Viewer0.session p) = true ->
   clicked inp = Some StopMonitoring ->
   Viewer0.monitoring (Viewer0.session (Viewer0.after (Viewer0.main inp p))) = Some false /\
   Viewer0.observer (Viewer0.session (Viewer0.after (Viewer0.main inp p))) = None /\
   Viewer0.event_queue (Viewer0.session (Viewer0.after (Viewer0.main inp p)))
     = Viewer0.event_queue (Viewer0.session p) /\
   Viewer0.event_list (Viewer0.session (Viewer0.after (Viewer0.main inp p)))
     = Viewer0.event_list (Viewer0.session p) /\
   Viewer0.new_events (Viewer0.main inp p)
     = Viewer0.display_new_events (Viewer0.event_list (Viewer0.session p))).
Proof.
  intros Hex. unfold Viewer0.main. fold (viewer0_folder inp). rewrite Hex.
  cbn [negb]. unfold Viewer0.controls, st_button. split.
  - intros Hm Hc. rewrite Hm, Hc. cbn.
    unfold Viewer0.check_events_and_update. cbn.
    rewrite viewer0_drain_loop_spec.
    destruct (Viewer0.display_file_listing (folder inp)); cbn; repeat split.
  - intros Hm Hc. rewrite Hm, Hc. cbn.
    destruct (Viewer0.display_file_listing (folder inp)); cbn; repeat split.
Qed.

(** A stop in a session of file_viewer_0.py with one event still queued. *)
Lemma viewer0_polls_after_controls_witness :
  Viewer0.event_queue (Viewer0.session (Viewer0.after (Viewer0.main
    (click (Some StopMonitoring) "/a" (strptime_S 1020))
    {| Viewer0.session :=
         {| Viewer0.event_queue := [report_event]; Viewer0.observer := Some 0%nat;
            Viewer0.event_list := []; Viewer0.monitoring := Some true |};
       Viewer0.threads := [{| watch_path := "/a"; status := Running |}] |})))
  = [report_event].
Proof.
  apply (viewer0_polls_after_controls
           (click (Some StopMonitoring) "/a" (strptime_S 1020))
           {| Viewer0.session :=
                {| Viewer0.event_queue := [report_event]; Viewer0.observer := Some 0%nat;
                   Viewer0.event_list := []; Viewer0.monitoring := Some true |};
              Viewer0.threads := [{| watch_path := "/a"; status := Running |}] |});
    reflexivity.
Defined.

(** ** The returned flag under interleaving *)

Lemma flag_of_snoc (b : list FileEventWrapper) (e : FileEventWrapper) :
  flag_of (b ++ [e]) = true.
Proof. now destruct b. Qed.

Lemma run_flags (sch : list Interleaving.turn) (s : Interleaving.Pipe) :
  flag_ok (Interleaving.pc s) ->
  Forall (fun d => snd d = flag_of (fst d)) (snd (Interleaving.run sch s)).
Proof.
  revert s. induction sch as [|t sch IH]; intros s Hs; [constructor|].
  cbn [Interleaving.run]. destruct t as [e tm|].
  - cbn [Interleaving.turn_step].
    specialize (IH (Interleaving.producer_step e tm s) Hs).
    now destruct (Interleaving.run sch _).
  - cbn [Interleaving.turn_step]. unfold Interleaving.consumer_step.
    destruct s as [q h c]. cbn [Interleaving.pc Interleaving.queue Interleaving.history] in *.
    destruct c as [|ep b|ep b]; cbn [flag_ok] in Hs.
    + specialize (IH {| Interleaving.queue := q; Interleaving.history := h;
                        Interleaving.pc := Interleaving.Testing false [] |} eq_refl).
      now destruct (Interleaving.run sch _).
    + destruct q as [|e q].
      * specialize (IH {| Interleaving.queue := []; Interleaving.history := h;
                          Interleaving.pc := Interleaving.Outside |} I).
        destruct (Interleaving.run sch _) as [s2 ds]. cbn [snd] in *.
        constructor; [exact Hs | exact IH].
      * specialize (IH {| Interleaving.queue := e :: q; Interleaving.history := h;
                          Interleaving.pc := Interleaving.Getting ep b |} Hs).
        now destruct (Interleaving.run sch _).
    + destruct q as [|e q].
      * specialize (IH {| Interleaving.queue := []; Interleaving.history := h;
                          Interleaving.pc := Interleaving.Getting ep b |} Hs).
        now destruct (Interleaving.run sch _).
      * specialize (IH {| Interleaving.queue := q; Interleaving.history := h ++ [e];
                          Interleaving.pc := Interleaving.Testing true (b ++ [e]) |}).
        cbn [Interleaving.pc flag_ok] in IH. rewrite flag_of_snoc in IH.
        specialize (IH eq_refl). now destruct (Interleaving.run sch _).
Qed.

(** X19: However the puts of the producer fall between the actions of the
    consumer, every call of [check_events_and_update] returns [True]
    exactly when it has moved at least one event to the history. *)
Theorem returned_flag_says_moved (sch : list Interleaving.turn) :
  Forall (fun d => snd d = true <-> fst d <> [])
         (snd (Interleaving.run sch Interleaving.start)).
Proof.
  pose proof (run_flags sch Interleaving.start I) as H.
  eapply List.Forall_impl; [|exact H].
  intros [b ep] Hd. cbn [fst snd] in *. rewrite Hd.
  destruct b; cbn; split; congruence.
Qed.
